(** * Photo-frame compositor

    A shallow embedding of [renderCompositeToCanvas] and [mergeImages]
    (the feature-complete variant: profile scale, rotation and offsets,
    frame scale) together with the part of the browser's 2D canvas that
    the two functions drive.

    Layout of the development:
    - [Number]: the arithmetic of JavaScript numbers as an interface, with
      the IEEE-754 binary64 instance (what the engine computes) and the
      instance of exact real arithmetic (what the formulas denote);
    - [Canvas2D]: the canvas element and its rendering context as a state
      record that logs every drawing command with the transform in force;
    - [renderCompositeToCanvas]: the compositor, in a state-and-exception
      monad over [Canvas2D];
    - the raster reading of a display list and the geometric reading of a
      transform;
    - [mergeImages]: the export wrapper as an event-driven state machine. *)

From Stdlib Require Import List String DecimalString DecimalNat Bool NArith ZArith Lia.
From Stdlib Require Import Floats.
From Stdlib Require Import Reals Lra.
Import ListNotations.

Set Implicit Arguments.

(* ================================================================= *)
(** ** JavaScript numbers *)

(** The operations on numbers that the compositor uses.  [of_N] is the
    conversion of an [unsigned long] DOM attribute (or of an integer
    literal of the source) to a number. *)
Class Number (num : Type) : Type := {
  of_N : N -> num;
  add : num -> num -> num;
  sub : num -> num -> num;
  mul : num -> num -> num;
  div : num -> num -> num;
  neg : num -> num;
  Math_max : num -> num -> num;
  Math_PI : num
}.

Declare Scope js_scope.
Delimit Scope js_scope with js.
Notation "x + y" := (add x y) : js_scope.
Notation "x - y" := (sub x y) : js_scope.
Notation "x * y" := (mul x y) : js_scope.
Notation "x / y" := (div x y) : js_scope.
Notation "- x" := (neg x) : js_scope.

(** *** IEEE-754 binary64: the numbers of the engine *)

(** Conversion of a natural number, rounding to nearest-even above 2^53. *)
Definition float_of_N (n : N) : float :=
  SF2Prim (binary_normalize prec emax (Z.of_N n) 0%Z false).

(** [Math.max] of two numbers: NaN if either is NaN, and [+0] counts as
    larger than [-0]. *)
Definition float_max (a b : float) : float :=
  if (is_nan a || is_nan b)%bool then nan
  else if (a <? b)%float then b
  else if (b <? a)%float then a
  else if get_sign a then b else a.

(** [Math.PI], the double nearest to pi (3.141592653589793). *)
Definition float_PI : float := 0x1.921fb54442d18p+1%float.

#[export] Instance float_Number : Number float := {|
  of_N := float_of_N;
  add := PrimFloat.add;
  sub := PrimFloat.sub;
  mul := PrimFloat.mul;
  div := PrimFloat.div;
  neg := PrimFloat.opp;
  Math_max := float_max;
  Math_PI := float_PI
|}.

(** *** Exact real arithmetic: what the formulas denote *)

#[export] Instance real_Number : Number R := {|
  of_N := fun n => IZR (Z.of_N n);
  add := Rplus;
  sub := Rminus;
  mul := Rmult;
  div := Rdiv;
  neg := Ropp;
  Math_max := Rmax;
  Math_PI := PI
|}.

(* ================================================================= *)
(** ** Images and options *)

(** A dimension attribute as a JavaScript value: [None] is [undefined],
    [Some n] the [unsigned long] n. *)
Definition Dim : Type := option N.

(** [a || b] on dimension values: [a] when it is truthy, else [b]. *)
Definition js_or (a b : Dim) : Dim :=
  match a with
  | Some n => if (n =? 0)%N then b else a
  | None => b
  end.

(** [!a] on a dimension value: [undefined] and [0] are falsy. *)
Definition js_not (a : Dim) : bool :=
  match a with
  | Some n => (n =? 0)%N
  | None => true
  end.

(** The number held by a dimension value that passed the truthiness
    guard (an [undefined] never reaches this point). *)
Definition dim_value (a : Dim) : N :=
  match a with
  | Some n => n
  | None => 0%N
  end.

Notation "a ||| b" := (js_or a b) (at level 50, left associativity).

(** The attributes of an [HTMLImageElement] that the compositor reads;
    [src] identifies the bitmap. *)
Record HTMLImageElement : Type := {
  src : string;
  naturalWidth : Dim;
  naturalHeight : Dim;
  width : Dim;
  height : Dim
}.

(** [CompositeOptions]: every field optional ([None]: absent). *)
Record CompositeOptions (num : Type) : Type := {
  profileScale : option num;
  frameScale : option num;
  profileRotation : option num;  (* degrees *)
  profileOffsetX : option num;   (* pixels *)
  profileOffsetY : option num    (* pixels *)
}.

(** A destructuring default, [{ x = d }]. *)
Definition or_default {A : Type} (d : A) (x : option A) : A :=
  match x with
  | Some v => v
  | None => d
  end.

(** The options object [{}]. *)
Definition no_options (num : Type) : CompositeOptions num :=
  {| profileScale := None; frameScale := None; profileRotation := None;
     profileOffsetX := None; profileOffsetY := None |}.

(* ================================================================= *)
(** ** The canvas and its 2D rendering context *)

(** An [Error] object, identified by its message. *)
Inductive Error : Type := mkError (message : string).

Section Canvas.
Context {num : Type}.

(** A step of the current transformation matrix.  A transform is the
    list of the steps applied so far, first call first: the canvas
    point of a user-space point [p] is [T1 (T2 (... (Tn p)))]. *)
Inductive TransformOp : Type :=
| Translate (x y : num)
| Rotate (angle : num).

Definition Transform : Type := list TransformOp.

Definition identity : Transform := [].

(** A drawing command, with the transform that was current when it was
    issued. *)
Inductive DrawOp : Type :=
| ClearRect (ctm : Transform) (x y w h : num)
| DrawImage (ctm : Transform) (image : HTMLImageElement) (dx dy dw dh : num).

(** The canvas element ([canvas_width], [canvas_height]) and the state
    of its context: the current transform, the stack of [save], and the
    display list, i.e. what was drawn since the bitmap was last reset,
    oldest first. *)
Record Canvas2D : Type := {
  canvas_width : N;
  canvas_height : N;
  ctm : Transform;
  saved : list Transform;
  display : list DrawOp
}.

(** Computations that mutate the canvas and may throw: the canvas is
    returned in either case, as it is when the exception leaves. *)
Definition Draw (A : Type) : Type := Canvas2D -> Canvas2D * (Error + A).

Definition ret {A : Type} (a : A) : Draw A := fun s => (s, inr a).

Definition throw {A : Type} (e : Error) : Draw A := fun s => (s, inl e).

Definition bind {A B : Type} (m : Draw A) (k : A -> Draw B) : Draw B :=
  fun s =>
    match m s with
    | (s', inr a) => k a s'
    | (s', inl e) => (s', inl e)
    end.

(** What a canvas dimension holds after [n] was assigned to it.  The
    attribute is an [unsigned long] limited to 0..2147483647: the assigned
    number is converted to an [unsigned long] (modulo 2^32), and a value
    above 2147483647 is replaced by the default of the attribute. *)
Definition canvas_dimension (default n : N) : N :=
  let value := (n mod 2 ^ 32)%N in
  if (value <=? 2147483647)%N then value else default.

(** The defaults of [canvas.width] and [canvas.height]. *)
Definition default_width : N := 300.
Definition default_height : N := 150.

(** [canvas.width = w]: setting a dimension resets the bitmap to
    transparent black and the context to its default state. *)
Definition set_canvas_width (w : N) : Draw unit := fun s =>
  ({| canvas_width := canvas_dimension default_width w;
      canvas_height := canvas_height s;
      ctm := identity; saved := []; display := [] |}, inr tt).

(** [canvas.height = h]. *)
Definition set_canvas_height (h : N) : Draw unit := fun s =>
  ({| canvas_width := canvas_width s;
      canvas_height := canvas_dimension default_height h;
      ctm := identity; saved := []; display := [] |}, inr tt).

(** Reading [canvas.width] and [canvas.height]. *)
Definition get_canvas_width : Draw N := fun s => (s, inr (canvas_width s)).
Definition get_canvas_height : Draw N := fun s => (s, inr (canvas_height s)).

Definition emit (op : Transform -> DrawOp) : Draw unit := fun s =>
  ({| canvas_width := canvas_width s; canvas_height := canvas_height s;
      ctm := ctm s; saved := saved s;
      display := display s ++ [op (ctm s)] |}, inr tt).

Definition transform_by (t : TransformOp) : Draw unit := fun s =>
  ({| canvas_width := canvas_width s; canvas_height := canvas_height s;
      ctm := ctm s ++ [t]; saved := saved s;
      display := display s |}, inr tt).

(** [ctx.clearRect(x, y, w, h)]. *)
Definition clearRect (x y w h : num) : Draw unit :=
  emit (fun m => ClearRect m x y w h).

(** [ctx.drawImage(image, dx, dy, dw, dh)]. *)
Definition drawImage (image : HTMLImageElement) (dx dy dw dh : num) : Draw unit :=
  emit (fun m => DrawImage m image dx dy dw dh).

(** [ctx.translate(x, y)] and [ctx.rotate(angle)]. *)
Definition translate (x y : num) : Draw unit := transform_by (Translate x y).
Definition rotate (angle : num) : Draw unit := transform_by (Rotate angle).

(** [ctx.save()]: push the drawing state. *)
Definition save : Draw unit := fun s =>
  ({| canvas_width := canvas_width s; canvas_height := canvas_height s;
      ctm := ctm s; saved := ctm s :: saved s;
      display := display s |}, inr tt).

(** [ctx.restore()]: pop the drawing state; nothing on an empty stack. *)
Definition restore : Draw unit := fun s =>
  match saved s with
  | [] => (s, inr tt)
  | m :: rest =>
      ({| canvas_width := canvas_width s; canvas_height := canvas_height s;
          ctm := m; saved := rest; display := display s |}, inr tt)
  end.

End Canvas.

Arguments canvas_dimension : simpl never.
Arguments TransformOp : clear implicits.
Arguments Transform : clear implicits.
Arguments DrawOp : clear implicits.
Arguments Canvas2D : clear implicits.
Arguments Draw : clear implicits.

Notation "x <- m ;; k" := (bind m (fun x => k))
  (at level 61, m at next level, right associativity).
Notation "m ;;; k" := (bind m (fun _ => k))
  (at level 61, right associativity).

(* ================================================================= *)
(** ** The compositor *)

Definition InvalidDimensionsError : Error :=
  mkError "Invalid image dimensions".

Section Compositor.
Context {num : Type} `{Number num}.
Local Open Scope js_scope.

(** The constants that the function computes between sizing the canvas
    and drawing, under the names they have in the source. *)
Record Layout : Type := {
  scaledFrameWidth : num;
  scaledFrameHeight : num;
  baseProfileScale : num;
  finalProfileWidth : num;
  finalProfileHeight : num;
  baseProfileOffsetX : num;
  baseProfileOffsetY : num;
  profileCenterX : num;
  profileCenterY : num;
  rotationRadians : num;
  frameOffsetX : num;
  frameOffsetY : num
}.

Definition layout
    (canvas_width canvas_height : num)
    (frameWidth frameHeight profileWidth profileHeight : num)
    (profileScale frameScale profileRotation profileOffsetX profileOffsetY : num)
    : Layout :=
  let scaledFrameWidth := frameWidth * frameScale in
  let scaledFrameHeight := frameHeight * frameScale in
  let baseProfileScale :=
    Math_max (canvas_width / profileWidth) (canvas_height / profileHeight) in
  let finalProfileWidth := profileWidth * baseProfileScale * profileScale in
  let finalProfileHeight := profileHeight * baseProfileScale * profileScale in
  let baseProfileOffsetX := (canvas_width - finalProfileWidth) / of_N 2 in
  let baseProfileOffsetY := (canvas_height - finalProfileHeight) / of_N 2 in
  let profileCenterX :=
    baseProfileOffsetX + finalProfileWidth / of_N 2 + profileOffsetX in
  let profileCenterY :=
    baseProfileOffsetY + finalProfileHeight / of_N 2 + profileOffsetY in
  let rotationRadians := (profileRotation * Math_PI) / of_N 180 in
  let frameOffsetX := (canvas_width - scaledFrameWidth) / of_N 2 in
  let frameOffsetY := (canvas_height - scaledFrameHeight) / of_N 2 in
  {| scaledFrameWidth := scaledFrameWidth;
     scaledFrameHeight := scaledFrameHeight;
     baseProfileScale := baseProfileScale;
     finalProfileWidth := finalProfileWidth;
     finalProfileHeight := finalProfileHeight;
     baseProfileOffsetX := baseProfileOffsetX;
     baseProfileOffsetY := baseProfileOffsetY;
     profileCenterX := profileCenterX;
     profileCenterY := profileCenterY;
     rotationRadians := rotationRadians;
     frameOffsetX := frameOffsetX;
     frameOffsetY := frameOffsetY |}.

Definition renderCompositeToCanvas
    (profile frame : HTMLImageElement)
    (options : CompositeOptions num) : Draw num unit :=
  let profileScale := or_default (of_N 1) (profileScale options) in
  let frameScale := or_default (of_N 1) (frameScale options) in
  let profileRotation := or_default (of_N 0) (profileRotation options) in
  let profileOffsetX := or_default (of_N 0) (profileOffsetX options) in
  let profileOffsetY := or_default (of_N 0) (profileOffsetY options) in
  let frameWidth := naturalWidth frame ||| width frame in
  let frameHeight := naturalHeight frame ||| height frame in
  let profileWidth := naturalWidth profile ||| width profile in
  let profileHeight := naturalHeight profile ||| height profile in
  if (js_not frameWidth || js_not frameHeight
      || js_not profileWidth || js_not profileHeight)%bool
  then throw InvalidDimensionsError
  else
    let frameWidth := dim_value frameWidth in
    let frameHeight := dim_value frameHeight in
    let profileWidth := dim_value profileWidth in
    let profileHeight := dim_value profileHeight in
    set_canvas_width frameWidth ;;;
    set_canvas_height frameHeight ;;;
    canvas_width <- get_canvas_width ;;
    canvas_height <- get_canvas_height ;;
    let g :=
      layout (of_N canvas_width) (of_N canvas_height)
        (of_N frameWidth) (of_N frameHeight)
        (of_N profileWidth) (of_N profileHeight)
        profileScale frameScale profileRotation profileOffsetX profileOffsetY in
    clearRect (of_N 0) (of_N 0) (of_N canvas_width) (of_N canvas_height) ;;;
    save ;;;
    translate (profileCenterX g) (profileCenterY g) ;;;
    rotate (rotationRadians g) ;;;
    drawImage profile
      (- finalProfileWidth g / of_N 2)
      (- finalProfileHeight g / of_N 2)
      (finalProfileWidth g)
      (finalProfileHeight g) ;;;
    restore ;;;
    drawImage frame
      (frameOffsetX g) (frameOffsetY g)
      (scaledFrameWidth g) (scaledFrameHeight g).

End Compositor.

Arguments Layout : clear implicits.

(* ================================================================= *)
(** ** Reading a display list as pixels *)

(** The colour of a pixel: fully transparent, or 8-bit channels with an
    alpha of 1 to 255 (255 is opaque). *)
Inductive Colour : Type :=
| Transparent
| Ink (red green blue : N) (alpha : positive).

Definition is_opaque (c : Colour) : bool :=
  match c with
  | Ink _ _ _ a => (a =? 255)%positive
  | Transparent => false
  end.

(** A device pixel of the canvas bitmap. *)
Definition Pixel : Type := (Z * Z)%type.

(** What the compositor does not decide and the browser does: the colour
    that drawing an image into a rectangle under a transform contributes
    at a pixel ([sample], transparent outside the image), whether a
    cleared rectangle reaches a pixel ([covers]), and how a partially
    transparent colour mixes with the colour below it ([blend]). *)
Record Rasteriser (num : Type) : Type := {
  sample : Transform num -> HTMLImageElement -> num -> num -> num -> num -> Pixel -> Colour;
  covers : Transform num -> num -> num -> num -> num -> Pixel -> bool;
  blend : Colour -> Colour -> Colour
}.

Section Raster.
Context {num : Type} (browser : Rasteriser num).

(** The default compositing operator, source-over: a transparent source
    leaves the backdrop, an opaque source or an empty backdrop gives the
    source, anything else is mixed. *)
Definition source_over (source backdrop : Colour) : Colour :=
  match source, backdrop with
  | Transparent, _ => backdrop
  | _, Transparent => source
  | _, _ => if is_opaque source then source else blend browser source backdrop
  end.

Definition paint (p : Pixel) (below : Colour) (op : DrawOp num) : Colour :=
  match op with
  | ClearRect m x y w h =>
      if covers browser m x y w h p then Transparent else below
  | DrawImage m image dx dy dw dh =>
      source_over (sample browser m image dx dy dw dh p) below
  end.

(** The colour of a pixel of a bitmap that was reset and then drawn
    into by the commands of the display list, oldest first. *)
Definition pixel_of (ops : list (DrawOp num)) (p : Pixel) : Colour :=
  fold_left (paint p) ops Transparent.

End Raster.

(* ================================================================= *)
(** ** Reading a transform as a map of the plane *)

Definition Point : Type := (R * R)%type.

(** Canvas coordinates of a point given in the coordinates after one
    more step of the transform. *)
Definition apply_op (t : TransformOp R) (p : Point) : Point :=
  match t with
  | Translate tx ty => (fst p + tx, snd p + ty)%R
  | Rotate a =>
      (fst p * cos a - snd p * sin a, fst p * sin a + snd p * cos a)%R
  end.

Definition to_canvas (m : Transform R) (p : Point) : Point :=
  fold_right apply_op p m.

(** The centre of the rectangle [(dx, dy, dw, dh)]. *)
Definition rect_center (dx dy dw dh : R) : Point :=
  (dx + dw / 2, dy + dh / 2)%R.

(* ================================================================= *)
(** ** The export wrapper *)

(** Object URLs and the browser's store of the live ones. *)
Definition URL : Type := string.

Record File : Type := { file_name : string }.

Record URLStore : Type := { live : list URL; serial : nat }.

(** [URL.createObjectURL(file)]: a new URL, live until revoked. *)
Definition createObjectURL (file : File) (store : URLStore) : URL * URLStore :=
  let url := ("blob:" ++ NilEmpty.string_of_uint (Nat.to_uint (serial store)))%string in
  (url, {| live := url :: live store; serial := S (serial store) |}).

(** [URL.revokeObjectURL(url)]: nothing when the URL is not live. *)
Definition revokeObjectURL (url : URL) (store : URLStore) : URLStore :=
  {| live := remove string_dec url (live store); serial := serial store |}.

(** [new Image()]: nothing decoded yet. *)
Definition new_Image : HTMLImageElement :=
  {| src := ""; naturalWidth := Some 0%N; naturalHeight := Some 0%N;
     width := Some 0%N; height := Some 0%N |}.

(** The element once [src] is assigned, and once the decoder has
    delivered a bitmap of [w] by [h] pixels (no [width] or [height]
    attribute is set, so those report the natural size). *)
Definition with_src (url : URL) (image : HTMLImageElement) : HTMLImageElement :=
  {| src := url; naturalWidth := naturalWidth image;
     naturalHeight := naturalHeight image;
     width := width image; height := height image |}.

Definition decoded (w h : N) (image : HTMLImageElement) : HTMLImageElement :=
  {| src := src image; naturalWidth := Some w; naturalHeight := Some h;
     width := Some w; height := Some h |}.

Definition ProfileDecodeError : Error := mkError "Failed to load profile image".
Definition FrameDecodeError : Error := mkError "Failed to load frame image".
Definition EncodeError : Error := mkError "Failed to create blob".
Definition ContextError : Error := mkError "Could not get canvas context".

Module MergeImages.
Section ExportWrapper.
Context {num : Type} `{Number num}.

(** [document.createElement('canvas')]. *)
Definition new_canvas : Canvas2D num :=
  {| canvas_width := 300; canvas_height := 150;
     ctm := identity; saved := []; display := [] |}.

(** The result of [canvas.toBlob]: the bitmap at the time of the call,
    with the requested type. *)
Record Blob : Type := { blob_type : string; blob_bitmap : Canvas2D num }.

Inductive PromiseState : Type :=
| Pending
| Resolved (blob : Blob)
| Rejected (error : Error).

(** The promise, the URL store, and the locals of the executor that the
    event handlers close over.  [toBlob_pending] holds the bitmaps of
    the [toBlob] calls whose callback has not run yet. *)
Record Run : Type := {
  urls : URLStore;
  promise : PromiseState;
  canvas : Canvas2D num;
  profile : HTMLImageElement;
  frame : HTMLImageElement;
  profileUrl : URL;
  frameUrl : URL;
  options : CompositeOptions num;
  profileLoaded : bool;
  frameLoaded : bool;
  toBlob_pending : list Blob
}.

Definition set_urls (u : URLStore) (r : Run) : Run :=
  {| urls := u; promise := promise r; canvas := canvas r;
     profile := profile r; frame := frame r;
     profileUrl := profileUrl r; frameUrl := frameUrl r;
     options := options r; profileLoaded := profileLoaded r;
     frameLoaded := frameLoaded r; toBlob_pending := toBlob_pending r |}.

Definition set_promise (p : PromiseState) (r : Run) : Run :=
  {| urls := urls r; promise := p; canvas := canvas r;
     profile := profile r; frame := frame r;
     profileUrl := profileUrl r; frameUrl := frameUrl r;
     options := options r; profileLoaded := profileLoaded r;
     frameLoaded := frameLoaded r; toBlob_pending := toBlob_pending r |}.

Definition set_canvas (c : Canvas2D num) (r : Run) : Run :=
  {| urls := urls r; promise := promise r; canvas := c;
     profile := profile r; frame := frame r;
     profileUrl := profileUrl r; frameUrl := frameUrl r;
     options := options r; profileLoaded := profileLoaded r;
     frameLoaded := frameLoaded r; toBlob_pending := toBlob_pending r |}.

Definition set_profile (i : HTMLImageElement) (loaded : bool) (r : Run) : Run :=
  {| urls := urls r; promise := promise r; canvas := canvas r;
     profile := i; frame := frame r;
     profileUrl := profileUrl r; frameUrl := frameUrl r;
     options := options r; profileLoaded := loaded;
     frameLoaded := frameLoaded r; toBlob_pending := toBlob_pending r |}.

Definition set_frame (i : HTMLImageElement) (loaded : bool) (r : Run) : Run :=
  {| urls := urls r; promise := promise r; canvas := canvas r;
     profile := profile r; frame := i;
     profileUrl := profileUrl r; frameUrl := frameUrl r;
     options := options r; profileLoaded := profileLoaded r;
     frameLoaded := loaded; toBlob_pending := toBlob_pending r |}.

Definition set_toBlob_pending (q : list Blob) (r : Run) : Run :=
  {| urls := urls r; promise := promise r; canvas := canvas r;
     profile := profile r; frame := frame r;
     profileUrl := profileUrl r; frameUrl := frameUrl r;
     options := options r; profileLoaded := profileLoaded r;
     frameLoaded := frameLoaded r; toBlob_pending := q |}.

(** [resolve] and [reject] settle a pending promise and do nothing to a
    settled one. *)
Definition resolve (blob : Blob) (r : Run) : Run :=
  match promise r with
  | Pending => set_promise (Resolved blob) r
  | _ => r
  end.

Definition reject (error : Error) (r : Run) : Run :=
  match promise r with
  | Pending => set_promise (Rejected error) r
  | _ => r
  end.

Definition revoke (url : URL) (r : Run) : Run :=
  set_urls (revokeObjectURL url (urls r)) r.


(** The five options as the executor destructures them, each with its
    default, and passes them on. *)
Definition destructured (o : CompositeOptions num) : CompositeOptions num :=
  {| profileScale := Some (or_default (of_N 1) (profileScale o));
     frameScale := Some (or_default (of_N 1) (frameScale o));
     profileRotation := Some (or_default (of_N 0) (profileRotation o));
     profileOffsetX := Some (or_default (of_N 0) (profileOffsetX o));
     profileOffsetY := Some (or_default (of_N 0) (profileOffsetY o)) |}.

Definition revoke_both (r : Run) : Run :=
  revoke (frameUrl r) (revoke (profileUrl r) r).

(** The callback given to [canvas.toBlob]. *)
Definition toBlob_callback (blob : option Blob) (r : Run) : Run :=
  match blob with
  | Some b => resolve b (revoke_both r)
  | None => reject EncodeError (revoke_both r)
  end.

Definition tryMerge (r : Run) : Run :=
  if (negb (profileLoaded r) || negb (frameLoaded r))%bool then r
  else
    match renderCompositeToCanvas (profile r) (frame r) (options r) (canvas r) with
    | (c, inl error) => reject error (revoke_both (set_canvas c r))
    | (c, inr _) =>
        let r := set_canvas c r in
        set_toBlob_pending
          (toBlob_pending r ++ [{| blob_type := "image/png"; blob_bitmap := c |}]) r
    end.

Definition profile_onload (r : Run) : Run :=
  tryMerge (set_profile (profile r) true r).

Definition frame_onload (r : Run) : Run :=
  tryMerge (set_frame (frame r) true r).

Definition profile_onerror (r : Run) : Run :=
  reject ProfileDecodeError (revoke_both r).

Definition frame_onerror (r : Run) : Run :=
  reject FrameDecodeError (revoke_both r).

(** What [mergeImages] has done when the executor returns: either it
    rejected at once for want of a 2D context, with no URL created and
    no handler installed, or the two loads are under way. *)
Inductive Started : Type :=
| NoContext (store : URLStore) (p : PromiseState)
| Loading (r : Run).

Definition mergeImages (profileImage frameImage : File)
    (opts : CompositeOptions num)
    (has_context : bool) (store : URLStore) : Started :=
  if negb has_context then NoContext store (Rejected ContextError)
  else
    let (profileUrl, store) := createObjectURL profileImage store in
    let (frameUrl, store) := createObjectURL frameImage store in
    Loading
      {| urls := store; promise := Pending; canvas := new_canvas;
         profile := with_src profileUrl new_Image;
         frame := with_src frameUrl new_Image;
         profileUrl := profileUrl; frameUrl := frameUrl;
         options := destructured opts;
         profileLoaded := false; frameLoaded := false;
         toBlob_pending := [] |}.

(** What the browser may do next: finish or fail either decode, or
    finish an encoding requested by [toBlob], with a blob or with
    [null]. *)
Inductive Event : Type :=
| ProfileLoad (w h : N)
| ProfileError
| FrameLoad (w h : N)
| FrameError
| BlobDone (encoded : bool).

Definition step (r : Run) (e : Event) : Run :=
  match e with
  | ProfileLoad w h =>
      profile_onload (set_profile (decoded w h (profile r)) (profileLoaded r) r)
  | ProfileError => profile_onerror r
  | FrameLoad w h =>
      frame_onload (set_frame (decoded w h (frame r)) (frameLoaded r) r)
  | FrameError => frame_onerror r
  | BlobDone encoded =>
      match toBlob_pending r with
      | [] => r
      | b :: rest =>
          toBlob_callback (if encoded then Some b else None)
            (set_toBlob_pending rest r)
      end
  end.

Definition run (events : list Event) (r : Run) : Run :=
  fold_left step events r.

Definition is_profile_load (e : Event) : bool :=
  match e with ProfileLoad _ _ => true | _ => false end.

Definition is_frame_load (e : Event) : bool :=
  match e with FrameLoad _ _ => true | _ => false end.

Definition is_decode_error (e : Event) : bool :=
  match e with ProfileError | FrameError => true | _ => false end.

End ExportWrapper.

Arguments Blob : clear implicits.
Arguments PromiseState : clear implicits.
Arguments Run : clear implicits.
Arguments Started : clear implicits.
End MergeImages.

(* ================================================================= *)
(** ** Vocabulary of the results, and test inputs *)

(** An element whose bitmap of [w] by [h] pixels has been decoded. *)
Definition image (name : string) (w h : N) : HTMLImageElement :=
  decoded w h (with_src name new_Image).

(** The options with [frameScale] replaced. *)
Definition with_frameScale {num : Type} (fs : option num)
    (o : CompositeOptions num) : CompositeOptions num :=
  {| profileScale := profileScale o; frameScale := fs;
     profileRotation := profileRotation o;
     profileOffsetX := profileOffsetX o; profileOffsetY := profileOffsetY o |}.

(** The options with [profileRotation] replaced. *)
Definition with_profileRotation {num : Type} (rot : option num)
    (o : CompositeOptions num) : CompositeOptions num :=
  {| profileScale := profileScale o; frameScale := frameScale o;
     profileRotation := rot;
     profileOffsetX := profileOffsetX o; profileOffsetY := profileOffsetY o |}.

(** The effective dimension in words: the natural dimension, or the
    element's own when the natural one is zero or undefined. *)
Definition effective_dim (natural attribute : Dim) : Dim :=
  if js_not natural then attribute else natural.

(** A dimension that is zero or undefined. *)
Definition zero_or_undefined (d : Dim) : Prop := d = None \/ d = Some 0%N.

(** The condition of the guard, as the source writes it. *)
Definition guard (profile frame : HTMLImageElement) : bool :=
  (js_not (naturalWidth frame ||| width frame)
   || js_not (naturalHeight frame ||| height frame)
   || js_not (naturalWidth profile ||| width profile)
   || js_not (naturalHeight profile ||| height profile))%bool.

(** A canvas that was drawn on before: odd size, a transform left in
    force, a saved state, and an image on the bitmap. *)
Definition used_canvas : Canvas2D float :=
  {| canvas_width := 17; canvas_height := 4;
     ctm := [Rotate 1%float]; saved := [[Translate 3%float 4%float]];
     display := [DrawImage [Rotate 1%float] (image "old" 5 5)
                   0%float 0%float 5%float 5%float] |}.

(** Options that use every parameter. *)
Definition tilted_options : CompositeOptions float :=
  {| profileScale := Some 2.5%float; frameScale := Some 0.5%float;
     profileRotation := Some 33%float;
     profileOffsetX := Some 120%float; profileOffsetY := Some (-75)%float |}.

(** A rasteriser for flat test images: the image named "frame" is opaque
    red except for a transparent hole on the pixels with [x < 400], every
    other image is opaque blue; rectangles reach every pixel. *)
Definition flat_rasteriser (num : Type) : Rasteriser num :=
  {| sample := fun _ img _ _ _ _ p =>
       if String.eqb (src img) "frame"
       then if (fst p <? 400)%Z then Transparent else Ink 255 0 0 255
       else Ink 0 0 255 255;
     covers := fun _ _ _ _ _ _ => true;
     blend := fun s _ => s |}.

(** Both object URLs that a run created are revoked. *)
Definition released {num : Type} (r : MergeImages.Run num) : Prop :=
  ~ In (MergeImages.profileUrl r) (live (MergeImages.urls r))
  /\ ~ In (MergeImages.frameUrl r) (live (MergeImages.urls r)).

(** The promise was rejected because a source did not decode. *)
Definition decode_failure {num : Type} (p : MergeImages.PromiseState num) : Prop :=
  p = MergeImages.Rejected ProfileDecodeError
  \/ p = MergeImages.Rejected FrameDecodeError.

(** What a handler can do to the promise and to the store: nothing
    ([untouched]), or revoke both URLs and, if the promise is pending,
    settle it ([cleaned_up]). *)
Definition untouched {num : Type} (r r' : MergeImages.Run num) : Prop :=
  MergeImages.urls r' = MergeImages.urls r
  /\ MergeImages.promise r' = MergeImages.promise r.

Definition cleaned_up {num : Type} (r r' : MergeImages.Run num) : Prop :=
  MergeImages.urls r' = MergeImages.urls (MergeImages.revoke_both r)
  /\ (MergeImages.promise r = MergeImages.Pending ->
      MergeImages.promise r' <> MergeImages.Pending)
  /\ (MergeImages.promise r <> MergeImages.Pending ->
      MergeImages.promise r' = MergeImages.promise r).

(** The promise after an event of a run in which one image never loads:
    only a decode error can settle it. *)
Definition decode_outcome {num : Type} (p : MergeImages.PromiseState num)
    (e : MergeImages.Event) : MergeImages.PromiseState num :=
  match p, e with
  | MergeImages.Pending, MergeImages.ProfileError =>
      MergeImages.Rejected ProfileDecodeError
  | MergeImages.Pending, MergeImages.FrameError =>
      MergeImages.Rejected FrameDecodeError
  | _, _ => p
  end.

(** A binary64 value that is a zero or a finite number. *)
Definition SF_finite (x : spec_float) : bool :=
  match x with
  | S754_zero _ | S754_finite _ _ _ => true
  | _ => false
  end.

(** A URL store in which other URLs are live already. *)
Definition busy_store : URLStore :=
  {| live := ["blob:0"; "blob:7"]%string; serial := 8 |}.

(* ================================================================= *)
(** ** The download helper *)

(** The URL that a store hands out at serial [n]. *)
Definition blob_url (n : nat) : URL :=
  ("blob:" ++ NilEmpty.string_of_uint (Nat.to_uint n))%string.

(** A store as the browser keeps it: every live URL was handed out by
    this store, at an earlier serial. *)
Definition store_ok (store : URLStore) : Prop :=
  forall u : URL, In u (live store) ->
    exists n : nat, (n < serial store)%nat /\ u = blob_url n.

Module Download.

(** The children of [document.body], by node identity, and the counter
    that [document.createElement] draws identities from. *)
Record Document : Type := { body : list nat; next_node : nat }.

(** An [a] element: its identity and the two attributes that are set. *)
Record Anchor : Type := { node : nat; href : URL; download : string }.

(** What a click on an anchor met: the anchor as it was, whether it was
    in the document, and whether its [href] was a live object URL. *)
Record Click : Type := { target : Anchor; attached : bool; href_live : bool }.

Record Browser : Type := {
  urls : URLStore;
  document : Document;
  clicks : list Click
}.

Definition NotFoundError : Error := mkError "NotFoundError".

(** [document.createElement('a')]: a new element, not in the document. *)
Definition createElement_a (b : Browser) : Anchor * Browser :=
  ({| node := next_node (document b); href := EmptyString; download := EmptyString |},
   {| urls := urls b;
      document := {| body := body (document b);
                     next_node := S (next_node (document b)) |};
      clicks := clicks b |}).

(** [document.body.appendChild(a)]: the node becomes the last child
    (moved there if it was a child already). *)
Definition appendChild (a : Anchor) (b : Browser) : Browser :=
  {| urls := urls b;
     document := {| body := remove Nat.eq_dec (node a) (body (document b)) ++ [node a];
                    next_node := next_node (document b) |};
     clicks := clicks b |}.

(** [document.body.removeChild(a)]: throws when the node is no child. *)
Definition removeChild (a : Anchor) (b : Browser) : Error + Browser :=
  if in_dec Nat.eq_dec (node a) (body (document b))
  then inr {| urls := urls b;
              document := {| body := remove Nat.eq_dec (node a) (body (document b));
                             next_node := next_node (document b) |};
              clicks := clicks b |}
  else inl NotFoundError.

(** [a.click()]. *)
Definition click (a : Anchor) (b : Browser) : Browser :=
  {| urls := urls b; document := document b;
     clicks := clicks b ++
       [{| target := a;
           attached := if in_dec Nat.eq_dec (node a) (body (document b))
                       then true else false;
           href_live := if in_dec string_dec (href a) (live (urls b))
                        then true else false |}] |}.

(** [URL.createObjectURL(blob)] and [URL.revokeObjectURL(url)] on the
    browser's store; the store treats a [Blob] as it treats a [File]. *)
Definition createObjectURL_blob {B : Type} (blob : B) (b : Browser) : URL * Browser :=
  (blob_url (serial (urls b)),
   {| urls := {| live := blob_url (serial (urls b)) :: live (urls b);
                 serial := S (serial (urls b)) |};
      document := document b; clicks := clicks b |}).

Definition revokeObjectURL_in (url : URL) (b : Browser) : Browser :=
  {| urls := revokeObjectURL url (urls b);
     document := document b; clicks := clicks b |}.

Definition downloadImage {B : Type} (blob : B) (filename : string)
    (b : Browser) : Error + Browser :=
  let (url, b) := createObjectURL_blob blob b in
  let (a, b) := createElement_a b in
  let a := {| node := node a; href := url; download := download a |} in
  let a := {| node := node a; href := href a; download := filename |} in
  let b := appendChild a b in
  let b := click a b in
  match removeChild a b with
  | inl e => inl e
  | inr b => inr (revokeObjectURL_in url b)
  end.

(** A document whose children were all created before now. *)
Definition document_ok (d : Document) : Prop :=
  Forall (fun n => (n < next_node d)%nat) (body d).

End Download.

(* ================================================================= *)
(** ** The scale-only compositor *)

(** The variant of the compositor that knows the two scales only: no
    rotation, no offsets, no change of transform. *)
Module ScaleOnly.
Section Compositor.
Context {num : Type} `{Number num}.
Local Open Scope js_scope.

Record CompositeOptions : Type := {
  profileScale : option num;
  frameScale : option num
}.

Definition renderCompositeToCanvas
    (profile frame : HTMLImageElement)
    (options : CompositeOptions) : Draw num unit :=
  let profileScale := or_default (of_N 1) (profileScale options) in
  let frameScale := or_default (of_N 1) (frameScale options) in
  let frameWidth := naturalWidth frame ||| width frame in
  let frameHeight := naturalHeight frame ||| height frame in
  let profileWidth := naturalWidth profile ||| width profile in
  let profileHeight := naturalHeight profile ||| height profile in
  if (js_not frameWidth || js_not frameHeight
      || js_not profileWidth || js_not profileHeight)%bool
  then throw InvalidDimensionsError
  else
    let frameWidth := dim_value frameWidth in
    let frameHeight := dim_value frameHeight in
    let profileWidth := of_N (dim_value profileWidth) in
    let profileHeight := of_N (dim_value profileHeight) in
    set_canvas_width frameWidth ;;;
    set_canvas_height frameHeight ;;;
    let scaledFrameWidth := of_N frameWidth * frameScale in
    let scaledFrameHeight := of_N frameHeight * frameScale in
    canvas_width <- get_canvas_width ;;
    canvas_height <- get_canvas_height ;;
    let canvas_width := of_N canvas_width in
    let canvas_height := of_N canvas_height in
    let baseProfileScale :=
      Math_max (canvas_width / profileWidth) (canvas_height / profileHeight) in
    let finalProfileWidth := profileWidth * baseProfileScale * profileScale in
    let finalProfileHeight := profileHeight * baseProfileScale * profileScale in
    let profileOffsetX := (canvas_width - finalProfileWidth) / of_N 2 in
    let profileOffsetY := (canvas_height - finalProfileHeight) / of_N 2 in
    let frameOffsetX := (canvas_width - scaledFrameWidth) / of_N 2 in
    let frameOffsetY := (canvas_height - scaledFrameHeight) / of_N 2 in
    clearRect (of_N 0) (of_N 0) canvas_width canvas_height ;;;
    drawImage profile
      profileOffsetX profileOffsetY finalProfileWidth finalProfileHeight ;;;
    drawImage frame frameOffsetX frameOffsetY scaledFrameWidth scaledFrameHeight.

End Compositor.

Arguments CompositeOptions : clear implicits.
End ScaleOnly.

(* ================================================================= *)
(** ** The first version: cover fit only *)

(** What [tryMerge] of the first [mergeImages] does between the join and
    [canvas.toBlob], with the rejection for a falsy dimension as a throw:
    the photo scaled to cover the canvas, the frame over all of it. *)
Module CoverOnly.
Section Compositor.
Context {num : Type} `{Number num}.
Local Open Scope js_scope.

Definition tryMerge_draw (profile frame : HTMLImageElement) : Draw num unit :=
  let frameWidth := naturalWidth frame ||| width frame in
  let frameHeight := naturalHeight frame ||| height frame in
  let profileWidth := naturalWidth profile ||| width profile in
  let profileHeight := naturalHeight profile ||| height profile in
  if (js_not frameWidth || js_not frameHeight
      || js_not profileWidth || js_not profileHeight)%bool
  then throw InvalidDimensionsError
  else
    let frameWidth := dim_value frameWidth in
    let frameHeight := dim_value frameHeight in
    let profileWidth := of_N (dim_value profileWidth) in
    let profileHeight := of_N (dim_value profileHeight) in
    set_canvas_width frameWidth ;;;
    set_canvas_height frameHeight ;;;
    canvas_width <- get_canvas_width ;;
    canvas_height <- get_canvas_height ;;
    let canvas_width := of_N canvas_width in
    let canvas_height := of_N canvas_height in
    let scale :=
      Math_max (canvas_width / profileWidth) (canvas_height / profileHeight) in
    let drawWidth := profileWidth * scale in
    let drawHeight := profileHeight * scale in
    let offsetX := (canvas_width - drawWidth) / of_N 2 in
    let offsetY := (canvas_height - drawHeight) / of_N 2 in
    clearRect (of_N 0) (of_N 0) canvas_width canvas_height ;;;
    drawImage profile offsetX offsetY drawWidth drawHeight ;;;
    drawImage frame (of_N 0) (of_N 0) canvas_width canvas_height.

End Compositor.
End CoverOnly.

(* ================================================================= *)
(** ** The application: state and handlers *)

(** [URL.createObjectURL] on a [Blob], on the store alone. *)
Definition createBlobURL {B : Type} (blob : B) (store : URLStore) : URL * URLStore :=
  (blob_url (serial store),
   {| live := blob_url (serial store) :: live store; serial := S (serial store) |}).

(** Truthiness of a string: the empty string is falsy. *)
Definition js_truthy (s : string) : bool := negb (String.eqb s EmptyString).

(** [if (url) URL.revokeObjectURL(url)]. *)
Definition revoke_if_truthy (url : string) (store : URLStore) : URLStore :=
  if js_truthy url then revokeObjectURL url store else store.

(** The geometry of a drawing command, without the image it draws. *)
Inductive Shape (num : Type) : Type :=
| Cleared (m : Transform num) (x y w h : num)
| Drawn (m : Transform num) (dx dy dw dh : num).

Definition shape_of {num : Type} (op : DrawOp num) : Shape num :=
  match op with
  | ClearRect m x y w h => Cleared m x y w h
  | DrawImage m _ dx dy dw dh => Drawn m dx dy dw dh
  end.

Module App.
Section Application.
Context {num : Type} `{Number num}.

(** The values held by the [useState] hooks. *)
Record State : Type := {
  profileImage : option File;
  frameImage : option File;
  profilePreview : string;
  framePreview : string;
  mergedImage : string;
  isProcessing : bool;
  profileScale : num;
  frameScale : num;
  profileRotation : num;
  profileOffsetX : num;
  profileOffsetY : num
}.

(** The state of the first render. *)
Definition initial : State :=
  {| profileImage := None; frameImage := None;
     profilePreview := EmptyString; framePreview := EmptyString;
     mergedImage := EmptyString; isProcessing := false;
     profileScale := of_N 1; frameScale := of_N 1; profileRotation := of_N 0;
     profileOffsetX := of_N 0; profileOffsetY := of_N 0 |}.

(** The component state, the browser's URL store, and the messages shown
    with [alert]. *)
Record World : Type := {
  state : State;
  urls : URLStore;
  alerts : list string
}.

Definition handleProfileSelect (file : File) (w : World) : World :=
  let st := state w in
  let (url, store) := createObjectURL file (urls w) in
  {| state :=
       {| profileImage := Some file; frameImage := frameImage st;
          profilePreview := url; framePreview := framePreview st;
          mergedImage := mergedImage st; isProcessing := isProcessing st;
          profileScale := of_N 1; frameScale := frameScale st;
          profileRotation := of_N 0;
          profileOffsetX := of_N 0; profileOffsetY := of_N 0 |};
     urls := store; alerts := alerts w |}.

Definition handleFrameSelect (file : File) (w : World) : World :=
  let st := state w in
  let (url, store) := createObjectURL file (urls w) in
  {| state :=
       {| profileImage := profileImage st; frameImage := Some file;
          profilePreview := profilePreview st; framePreview := url;
          mergedImage := mergedImage st; isProcessing := isProcessing st;
          profileScale := profileScale st; frameScale := of_N 1;
          profileRotation := profileRotation st;
          profileOffsetX := profileOffsetX st; profileOffsetY := profileOffsetY st |};
     urls := store; alerts := alerts w |}.

Definition handleClearProfile (w : World) : World :=
  let st := state w in
  let store := revoke_if_truthy (profilePreview st) (urls w) in
  {| state :=
       {| profileImage := None; frameImage := frameImage st;
          profilePreview := EmptyString; framePreview := framePreview st;
          mergedImage := EmptyString; isProcessing := isProcessing st;
          profileScale := of_N 1; frameScale := frameScale st;
          profileRotation := of_N 0;
          profileOffsetX := of_N 0; profileOffsetY := of_N 0 |};
     urls := store; alerts := alerts w |}.

Definition handleClearFrame (w : World) : World :=
  let st := state w in
  let store := revoke_if_truthy (framePreview st) (urls w) in
  {| state :=
       {| profileImage := profileImage st; frameImage := None;
          profilePreview := profilePreview st; framePreview := EmptyString;
          mergedImage := EmptyString; isProcessing := isProcessing st;
          profileScale := profileScale st; frameScale := of_N 1;
          profileRotation := profileRotation st;
          profileOffsetX := profileOffsetX st; profileOffsetY := profileOffsetY st |};
     urls := store; alerts := alerts w |}.

(** The options object that [renderPreview] and [handleGenerate] build
    from the state: all five fields present. *)
Definition options_of (st : State) : CompositeOptions num :=
  Build_CompositeOptions
    (Some (profileScale st)) (Some (frameScale st)) (Some (profileRotation st))
    (Some (profileOffsetX st)) (Some (profileOffsetY st)).

Definition with_processing (busy : bool) (st : State) : State :=
  {| profileImage := profileImage st; frameImage := frameImage st;
     profilePreview := profilePreview st; framePreview := framePreview st;
     mergedImage := mergedImage st; isProcessing := busy;
     profileScale := profileScale st; frameScale := frameScale st;
     profileRotation := profileRotation st;
     profileOffsetX := profileOffsetX st; profileOffsetY := profileOffsetY st |}.

Definition with_merged (url : string) (st : State) : State :=
  {| profileImage := profileImage st; frameImage := frameImage st;
     profilePreview := profilePreview st; framePreview := framePreview st;
     mergedImage := url; isProcessing := isProcessing st;
     profileScale := profileScale st; frameScale := frameScale st;
     profileRotation := profileRotation st;
     profileOffsetX := profileOffsetX st; profileOffsetY := profileOffsetY st |}.

Definition generate_failed : string :=
  "Failed to generate framed photo. Please try again.".

(** [handleGenerate], with what the browser does while it awaits
    [mergeImages] as parameters: whether a 2D context is to be had, and the
    events that reach the two images and the encoder.  No other handler
    runs in between.  A promise still pending after the events leaves the
    function suspended at [await]. *)
Definition handleGenerate (has_context : bool) (events : list MergeImages.Event)
    (w : World) : World :=
  match profileImage (state w), frameImage (state w) with
  | Some profileFile, Some frameFile =>
      let busy := with_processing true (state w) in
      let (store, outcome) :=
        match MergeImages.mergeImages profileFile frameFile (options_of (state w))
                has_context (urls w) with
        | MergeImages.NoContext store p => (store, p)
        | MergeImages.Loading r0 =>
            let r := MergeImages.run events r0 in
            (MergeImages.urls r, MergeImages.promise r)
        end in
      match outcome with
      | MergeImages.Pending =>
          {| state := busy; urls := store; alerts := alerts w |}
      | MergeImages.Resolved blob =>
          let (url, store) := createBlobURL blob store in
          {| state := with_processing false (with_merged url busy);
             urls := store; alerts := alerts w |}
      | MergeImages.Rejected error =>
          {| state := with_processing false busy;
             urls := store; alerts := alerts w ++ [generate_failed] |}
      end
  | _, _ => w
  end.

(** [renderPreview], given what the refs hold: the preview canvas (if
    mounted), whether it yields a 2D context, and the two loaded elements
    (if any).  The result is the canvas afterwards and what was written
    with [console.error]. *)
Definition renderPreview (st : State)
    (previewCanvas : option (Canvas2D num)) (has_context : bool)
    (profileImg frameImg : option HTMLImageElement)
    : option (Canvas2D num) * list Error :=
  match previewCanvas with
  | None => (None, [])
  | Some canvas =>
      if negb has_context then (Some canvas, [])
      else
        match profileImg, frameImg with
        | Some profileImg, Some frameImg =>
            match renderCompositeToCanvas profileImg frameImg (options_of st) canvas with
            | (canvas, inl error) => (Some canvas, [error])
            | (canvas, inr _) => (Some canvas, [])
            end
        | _, _ =>
            let cleared :=
              (cw <- get_canvas_width ;;
               ch <- get_canvas_height ;;
               clearRect (of_N 0) (of_N 0) (of_N cw) (of_N ch)) canvas in
            (Some (fst cleared), [])
        end
  end.

(** What the user can make the component do, one handler call each; a
    generation carries what the browser does while it is awaited. *)
Inductive Action : Type :=
| SelectProfile (file : File)
| SelectFrame (file : File)
| ClearProfile
| ClearFrame
| Generate (has_context : bool) (events : list MergeImages.Event).

Definition act (w : World) (a : Action) : World :=
  match a with
  | SelectProfile file => handleProfileSelect file w
  | SelectFrame file => handleFrameSelect file w
  | ClearProfile => handleClearProfile w
  | ClearFrame => handleClearFrame w
  | Generate has_context events => handleGenerate has_context events w
  end.

(** Handler calls one after the other, each on the state that the one
    before has left (a render lies in between), none started while a
    generation is awaited. *)
Definition play (actions : list Action) (w : World) : World :=
  fold_left act actions w.

(** The component as mounted, in a browser with the given URL store. *)
Definition start (store : URLStore) : World :=
  {| state := initial; urls := store; alerts := [] |}.

Definition blank_or_live (url : string) (store : URLStore) : Prop :=
  url = EmptyString \/ In url (live store).

(** The URL fields of the state agree with the store and with the file
    fields: each is blank or a live URL, no two of them hold the same URL,
    and a preview is blank exactly when its file is absent. *)
Definition consistent (w : World) : Prop :=
  store_ok (urls w)
  /\ blank_or_live (profilePreview (state w)) (urls w)
  /\ blank_or_live (framePreview (state w)) (urls w)
  /\ blank_or_live (mergedImage (state w)) (urls w)
  /\ (profilePreview (state w) = EmptyString <-> profileImage (state w) = None)
  /\ (framePreview (state w) = EmptyString <-> frameImage (state w) = None)
  /\ (profilePreview (state w) <> EmptyString ->
      profilePreview (state w) <> framePreview (state w)
      /\ profilePreview (state w) <> mergedImage (state w))
  /\ (framePreview (state w) <> EmptyString ->
      framePreview (state w) <> mergedImage (state w)).

End Application.

Arguments State : clear implicits.
Arguments World : clear implicits.
End App.

(* ================================================================= *)
(** ** The compositor: outcome of a call *)

Section RenderFacts.
Context {num : Type} `{Number num}.
Local Open Scope js_scope.

Lemma js_not_false (d : Dim) :
  js_not d = false <-> exists n, d = Some n /\ (0 < n)%N.
Proof.
  destruct d as [n|]; simpl; split.
  - intros E. apply N.eqb_neq in E. exists n. split; [reflexivity | lia].
  - intros [m [E Hm]]. inversion E; subst. apply N.eqb_neq. lia.
  - discriminate.
  - intros [m [E _]]. discriminate.
Qed.

Lemma js_not_true (d : Dim) : js_not d = true <-> zero_or_undefined d.
Proof.
  unfold zero_or_undefined. destruct d as [n|]; simpl; split.
  - intros E. apply N.eqb_eq in E. subst. now right.
  - intros [E|E]; [discriminate | inversion E; reflexivity].
  - now left.
  - reflexivity.
Qed.

Lemma js_or_effective (natural attribute : Dim) :
  natural ||| attribute = effective_dim natural attribute.
Proof.
  unfold js_or, effective_dim, js_not. destruct natural as [n|]; reflexivity.
Qed.

(** With a falsy dimension the call throws before touching the canvas. *)
Lemma render_throws profile frame options (s : Canvas2D num) :
  guard profile frame = true ->
  renderCompositeToCanvas profile frame options s = (s, inl InvalidDimensionsError).
Proof.
  unfold guard. intros E. unfold renderCompositeToCanvas. rewrite E. reflexivity.
Qed.

Lemma guard_true profile frame :
  guard profile frame = true <->
  (zero_or_undefined (naturalWidth frame ||| width frame)
   \/ zero_or_undefined (naturalHeight frame ||| height frame)
   \/ zero_or_undefined (naturalWidth profile ||| width profile)
   \/ zero_or_undefined (naturalHeight profile ||| height profile)).
Proof.
  unfold guard. rewrite !orb_true_iff, !js_not_true. tauto.
Qed.

Lemma guard_false profile frame :
  guard profile frame = false <->
  exists W Hh pw ph,
    naturalWidth frame ||| width frame = Some W /\
    naturalHeight frame ||| height frame = Some Hh /\
    naturalWidth profile ||| width profile = Some pw /\
    naturalHeight profile ||| height profile = Some ph /\
    (0 < W)%N /\ (0 < Hh)%N /\ (0 < pw)%N /\ (0 < ph)%N.
Proof.
  unfold guard. rewrite !orb_false_iff, !js_not_false. split.
  - intros [[[[W [EW HW]] [Hh [EH HH]]] [pw [Epw Hpw]]] [ph [Eph Hph]]].
    exists W, Hh, pw, ph. tauto.
  - intros (W & Hh & pw & ph & EW & EH & Epw & Eph & HW & HH & Hpw & Hph).
    repeat split; eexists; split; eassumption.
Qed.

(** A dimension that a canvas can hold is kept as it is. *)
Lemma canvas_dimension_fits (default n : N) :
  (n <= 2147483647)%N -> canvas_dimension default n = n.
Proof.
  intros Hn. unfold canvas_dimension. cbv zeta.
  rewrite N.mod_small by (change (2 ^ 32)%N with 4294967296%N; lia).
  apply N.leb_le in Hn. rewrite Hn. reflexivity.
Qed.

(** Whatever is assigned, a canvas holds a dimension it can hold or the
    default. *)
Lemma canvas_dimension_range (default n : N) :
  (canvas_dimension default n <= 2147483647)%N
  \/ canvas_dimension default n = default.
Proof.
  unfold canvas_dimension. cbv zeta.
  destruct (n mod 2 ^ 32 <=? 2147483647)%N eqn:E.
  - left. apply N.leb_le. exact E.
  - right. reflexivity.
Qed.

(** With four truthy dimensions the call returns, and leaves a canvas
    that holds exactly what it drew: the canvas has the size that the
    assignment of the frame's dimensions gives it, and the layout is
    computed from that size as read back. *)
Lemma render_draws profile frame options (s : Canvas2D num) W Hh pw ph :
  naturalWidth frame ||| width frame = Some W ->
  naturalHeight frame ||| height frame = Some Hh ->
  naturalWidth profile ||| width profile = Some pw ->
  naturalHeight profile ||| height profile = Some ph ->
  (0 < W)%N -> (0 < Hh)%N -> (0 < pw)%N -> (0 < ph)%N ->
  renderCompositeToCanvas profile frame options s =
    (let cw := canvas_dimension default_width W in
     let ch := canvas_dimension default_height Hh in
     let g :=
       layout (of_N cw) (of_N ch) (of_N W) (of_N Hh) (of_N pw) (of_N ph)
         (or_default (of_N 1) (profileScale options))
         (or_default (of_N 1) (frameScale options))
         (or_default (of_N 0) (profileRotation options))
         (or_default (of_N 0) (profileOffsetX options))
         (or_default (of_N 0) (profileOffsetY options)) in
     {| canvas_width := cw; canvas_height := ch;
        ctm := identity; saved := [];
        display :=
          [ClearRect identity (of_N 0) (of_N 0) (of_N cw) (of_N ch);
           DrawImage
             [Translate (profileCenterX g) (profileCenterY g);
              Rotate (rotationRadians g)]
             profile
             (- finalProfileWidth g / of_N 2) (- finalProfileHeight g / of_N 2)
             (finalProfileWidth g) (finalProfileHeight g);
           DrawImage identity frame
             (frameOffsetX g) (frameOffsetY g)
             (scaledFrameWidth g) (scaledFrameHeight g)] |},
     inr tt).
Proof.
  intros EW EH Epw Eph HW HH Hpw Hph.
  unfold renderCompositeToCanvas. rewrite EW, EH, Epw, Eph.
  destruct W; [lia|]. destruct Hh; [lia|]. destruct pw; [lia|]. destruct ph; [lia|].
  reflexivity.
Qed.

(** The guard decides between the two outcomes. *)
Lemma render_cases profile frame options (s : Canvas2D num) :
  (guard profile frame = true
   /\ renderCompositeToCanvas profile frame options s = (s, inl InvalidDimensionsError))
  \/ (guard profile frame = false
      /\ exists W Hh pw ph,
          naturalWidth frame ||| width frame = Some W /\
          naturalHeight frame ||| height frame = Some Hh /\
          naturalWidth profile ||| width profile = Some pw /\
          naturalHeight profile ||| height profile = Some ph /\
          (0 < W)%N /\ (0 < Hh)%N /\ (0 < pw)%N /\ (0 < ph)%N).
Proof.
  destruct (guard profile frame) eqn:E.
  - left. split; [reflexivity | now apply render_throws].
  - right. split; [reflexivity | now apply guard_false].
Qed.

End RenderFacts.

(* ================================================================= *)
(** ** Binary64 arithmetic on image dimensions *)

Unset Implicit Arguments.

Section Binary64.
Local Open Scope Z_scope.

Lemma digits2_pos_iter_xO (m k : positive) :
  Zpos (digits2_pos (Pos.iter xO m k)) = Zpos (digits2_pos m) + Zpos k.
Proof.
  induction k using Pos.peano_ind.
  - cbn. lia.
  - rewrite Pos.iter_succ. cbn [digits2_pos]. lia.
Qed.

Lemma digits2_pos_lower (m : positive) : 2 ^ (Zpos (digits2_pos m) - 1) <= Zpos m.
Proof.
  induction m as [m IH | m IH |]; cbn [digits2_pos].
  - replace (Zpos (Pos.succ (digits2_pos m)) - 1)
      with (Z.succ (Zpos (digits2_pos m) - 1)) by lia.
    rewrite Z.pow_succ_r by lia. lia.
  - replace (Zpos (Pos.succ (digits2_pos m)) - 1)
      with (Z.succ (Zpos (digits2_pos m) - 1)) by lia.
    rewrite Z.pow_succ_r by lia. lia.
  - cbn. lia.
Qed.

Lemma valid_finite (s : bool) (m : positive) (e : Z) :
  valid_binary (S754_finite s m e) = true ->
  fexp prec emax (Zpos (digits2_pos m) + e) = e /\ e <= emax - prec.
Proof.
  cbn [valid_binary]. unfold SpecFloat.bounded, SpecFloat.canonical_mantissa.
  intros Hv. apply andb_true_iff in Hv. destruct Hv as [Hc Hb].
  apply Z.eqb_eq in Hc. apply Z.leb_le in Hb. split; assumption.
Qed.

(** A canonical mantissa is not shifted, and rounds to itself. *)
Lemma shr_fexp_exact (m : positive) (e : Z) :
  fexp prec emax (Zpos (digits2_pos m) + e) = e ->
  shr_fexp prec emax (Zpos m) e loc_Exact
  = ({| shr_m := Zpos m; shr_r := false; shr_s := false |}, e).
Proof.
  intros Hfexp. unfold shr_fexp. cbn [Zdigits2]. rewrite Hfexp.
  rewrite Z.sub_diag. reflexivity.
Qed.

Lemma round_finite (s : bool) (m : positive) (e : Z) :
  fexp prec emax (Zpos (digits2_pos m) + e) = e -> e <= emax - prec ->
  forall (m' : positive) (e' : Z),
    shr_fexp prec emax (Zpos m') e' loc_Exact
    = ({| shr_m := Zpos m; shr_r := false; shr_s := false |}, e) ->
    binary_round_aux prec emax s (Zpos m') e' loc_Exact = S754_finite s m e.
Proof.
  intros Hfexp Hmax m' e' Hshr. unfold binary_round_aux. rewrite Hshr.
  cbn [shr_m loc_of_shr_record round_nearest_even].
  rewrite (shr_fexp_exact m e Hfexp). cbn [shr_m].
  apply Z.leb_le in Hmax. rewrite Hmax. reflexivity.
Qed.

(** [x * 1] is [x], for every binary64 value. *)
Lemma SFmul_one (x : spec_float) :
  valid_binary x = true ->
  SF64mul x (S754_finite false 4503599627370496 (-52)) = x.
Proof.
  destruct x as [s | s | | s m e]; intros Hv; try (destruct s; reflexivity).
  - reflexivity.
  - destruct (valid_finite s m e Hv) as [Hfexp Hmax].
    unfold SF64mul, SFmul. rewrite xorb_false_r.
    rewrite Pos.mul_comm. cbn [Pos.mul].
    apply (round_finite s m e Hfexp Hmax).
    unfold shr_fexp. cbn [Zdigits2 digits2_pos].
    match goal with |- context [fexp prec emax ?a] =>
      replace a with (Zpos (digits2_pos m) + e) by lia end.
    rewrite Hfexp. replace (e - (e + -52)) with 52 by lia.
    cbn [shr shr_record_of_loc iter_pos shr_1 orb].
    f_equal. lia.
Qed.

Lemma float_mul_one (x : float) : (x * 1)%float = x.
Proof.
  apply Prim2SF_inj. rewrite mul_spec.
  change (Prim2SF 1) with (S754_finite false 4503599627370496 (-52)).
  apply SFmul_one. apply Prim2SF_valid.
Qed.

(** [x - x] is [+0], for every finite binary64 value. *)
Lemma SFsub_same (x : spec_float) :
  SF_finite x = true -> SF64sub x x = S754_zero false.
Proof.
  destruct x as [s | s | | s m e]; intros Hf; try discriminate.
  - destruct s; reflexivity.
  - unfold SF64sub, SFsub. rewrite Z.min_id.
    unfold shl_align. rewrite Z.sub_diag. cbn [fst]. reflexivity.
Qed.

Lemma float_sub_same (x : float) :
  SF_finite (Prim2SF x) = true -> (x - x)%float = 0%float.
Proof.
  intros Hx. apply Prim2SF_inj. rewrite sub_spec.
  rewrite (SFsub_same _ Hx). reflexivity.
Qed.

(** An integer below 2^53 converts without rounding, to a finite value. *)
Lemma fexp_small (d : Z) : 1 <= d <= 53 -> fexp prec emax d = d - 53.
Proof. intros Hd. unfold fexp, SpecFloat.emin, prec, emax. lia. Qed.

Lemma binary_round_small (m : positive) :
  Zpos m < 2 ^ 53 ->
  exists (mz : positive) (ez : Z),
    binary_round prec emax false m 0 = S754_finite false mz ez
    /\ valid_binary (S754_finite false mz ez) = true.
Proof.
  intros Hm.
  assert (Hd : 1 <= Zpos (digits2_pos m) <= 53).
  { split; [lia|]. pose proof (digits2_pos_lower m) as Hlow.
    destruct (Z_le_gt_dec (Zpos (digits2_pos m)) 53) as [Hle | Hgt]; [exact Hle|].
    exfalso. assert (2 ^ 53 <= 2 ^ (Zpos (digits2_pos m) - 1))
      by (apply Z.pow_le_mono_r; lia). lia. }
  unfold binary_round. rewrite Z.add_0_r, (fexp_small _ Hd).
  unfold shl_align. rewrite Z.sub_0_r.
  destruct (Zpos (digits2_pos m) - 53) as [| p | p] eqn:Ep; [| lia |].
  - exists m, 0.
    assert (Hf : fexp prec emax (Zpos (digits2_pos m) + 0) = 0)
      by (rewrite Z.add_0_r, (fexp_small _ Hd); exact Ep).
    split.
    + apply (round_finite false m 0 Hf); [unfold emax, prec; lia|].
      apply shr_fexp_exact. exact Hf.
    + cbn [valid_binary]. unfold SpecFloat.bounded, SpecFloat.canonical_mantissa.
      rewrite Hf. reflexivity.
  - exists (Pos.iter xO m p), (Zneg p).
    assert (Hf : fexp prec emax (Zpos (digits2_pos (Pos.iter xO m p)) + Zneg p) = Zneg p).
    { rewrite digits2_pos_iter_xO.
      replace (Zpos (digits2_pos m) + Zpos p + Zneg p) with (Zpos (digits2_pos m)) by lia.
      rewrite (fexp_small _ Hd). exact Ep. }
    split.
    + apply (round_finite false (Pos.iter xO m p) (Zneg p) Hf); [unfold emax, prec; lia|].
      apply shr_fexp_exact. exact Hf.
    + cbn [valid_binary]. unfold SpecFloat.bounded, SpecFloat.canonical_mantissa.
      rewrite Hf, Z.eqb_refl. reflexivity.
Qed.

Lemma float_of_N_finite (n : N) :
  (n < 2 ^ 53)%N -> SF_finite (Prim2SF (float_of_N n)) = true.
Proof.
  intros Hn. unfold float_of_N. destruct n as [| m].
  - reflexivity.
  - cbn [Z.of_N binary_normalize].
    destruct (binary_round_small m) as (mz & ez & Hround & Hvalid).
    { change (2 ^ 53) with (Z.of_N (2 ^ 53)). lia. }
    rewrite Hround, (Prim2SF_SF2Prim _ Hvalid). reflexivity.
Qed.

(** The frame rectangle at scale 1, as the layout computes it. *)
Lemma float_fill (n : N) :
  (n < 2 ^ 53)%N ->
  ((float_of_N n - float_of_N n * 1) / 2 = 0
   /\ float_of_N n * 1 = float_of_N n)%float.
Proof.
  intros Hn. rewrite float_mul_one, float_sub_same by (apply float_of_N_finite; exact Hn).
  split; reflexivity.
Qed.

End Binary64.

Set Implicit Arguments.

(* ================================================================= *)
(** ** Source-over compositing *)

(** Source-over at its two ends. *)
Lemma source_over_transparent {num : Type} (browser : Rasteriser num) (below : Colour) :
  source_over browser Transparent below = below.
Proof. reflexivity. Qed.

Lemma source_over_opaque {num : Type} (browser : Rasteriser num) (c below : Colour) :
  is_opaque c = true -> source_over browser c below = c.
Proof.
  intros Hc. destruct c as [|r g b a]; [discriminate|].
  unfold source_over. destruct below; [reflexivity|]. rewrite Hc. reflexivity.
Qed.

Lemma source_over_empty {num : Type} (browser : Rasteriser num) (c : Colour) :
  source_over browser c Transparent = c.
Proof. destruct c; reflexivity. Qed.

(* ================================================================= *)
(** ** The export wrapper: cleanup and outcomes *)

Import MergeImages.

Section MergeFacts.
Context {num : Type} `{Number num}.

Lemma revoke_both_urls (r : Run num) :
  live (urls (revoke_both r))
  = remove string_dec (frameUrl r) (remove string_dec (profileUrl r) (live (urls r))).
Proof. reflexivity. Qed.

Lemma remove_twice_clean (a b : URL) (l : list URL) :
  ~ In a (remove string_dec b (remove string_dec a l))
  /\ ~ In b (remove string_dec b (remove string_dec a l)).
Proof.
  split.
  - intros Hin. apply in_remove in Hin. destruct Hin as [Hin _].
    exact (remove_In string_dec l a Hin).
  - apply remove_In.
Qed.

Lemma remove_twice_incl (a b : URL) (l : list URL) :
  incl (remove string_dec b (remove string_dec a l)) l.
Proof.
  intros u Hin. apply in_remove in Hin. destruct Hin as [Hin _].
  apply in_remove in Hin. tauto.
Qed.

Lemma reject_cleaned_up (e : Error) (r r1 : Run num) :
  urls r1 = urls r -> promise r1 = promise r ->
  profileUrl r1 = profileUrl r -> frameUrl r1 = frameUrl r ->
  cleaned_up r (reject e (revoke_both r1)).
Proof.
  intros Hu Hp Hpu Hfu. unfold cleaned_up, reject, revoke_both, revoke.
  cbn [promise urls set_urls set_promise profileUrl frameUrl].
  rewrite Hp, Hu, Hpu, Hfu.
  destruct (promise r) eqn:E; cbn [promise urls set_urls set_promise];
    repeat split; congruence.
Qed.

Lemma resolve_cleaned_up (b : Blob num) (r r1 : Run num) :
  urls r1 = urls r -> promise r1 = promise r ->
  profileUrl r1 = profileUrl r -> frameUrl r1 = frameUrl r ->
  cleaned_up r (resolve b (revoke_both r1)).
Proof.
  intros Hu Hp Hpu Hfu. unfold cleaned_up, resolve, revoke_both, revoke.
  cbn [promise urls set_urls set_promise profileUrl frameUrl].
  rewrite Hp, Hu, Hpu, Hfu.
  destruct (promise r) eqn:E; cbn [promise urls set_urls set_promise];
    repeat split; congruence.
Qed.

Lemma reject_keeps_urls (e : Error) (r : Run num) :
  profileUrl (reject e r) = profileUrl r /\ frameUrl (reject e r) = frameUrl r.
Proof. unfold reject. destruct (promise r); split; reflexivity. Qed.

Lemma resolve_keeps_urls (b : Blob num) (r : Run num) :
  profileUrl (resolve b r) = profileUrl r /\ frameUrl (resolve b r) = frameUrl r.
Proof. unfold resolve. destruct (promise r); split; reflexivity. Qed.

Lemma tryMerge_effect (r r1 : Run num) :
  urls r1 = urls r -> promise r1 = promise r ->
  profileUrl r1 = profileUrl r -> frameUrl r1 = frameUrl r ->
  profileUrl (tryMerge r1) = profileUrl r
  /\ frameUrl (tryMerge r1) = frameUrl r
  /\ (untouched r (tryMerge r1) \/ cleaned_up r (tryMerge r1)).
Proof.
  intros Hu Hp Hpu Hfu. unfold tryMerge.
  destruct (negb (profileLoaded r1) || negb (frameLoaded r1))%bool.
  - repeat split; try assumption. left. split; assumption.
  - destruct (renderCompositeToCanvas (profile r1) (frame r1) (options r1) (canvas r1))
      as [c [error | []]].
    + destruct (reject_keeps_urls error (revoke_both (set_canvas c r1))) as [E1 E2].
      rewrite E1, E2. cbn [revoke_both revoke set_urls set_canvas profileUrl frameUrl].
      repeat split; try assumption.
      right. apply reject_cleaned_up; assumption.
    + cbn [set_toBlob_pending set_canvas profileUrl frameUrl].
      repeat split; try assumption. left. split; assumption.
Qed.

Lemma step_effect (r : Run num) (e : Event) :
  profileUrl (step r e) = profileUrl r
  /\ frameUrl (step r e) = frameUrl r
  /\ (untouched r (step r e) \/ cleaned_up r (step r e)).
Proof.
  destruct e as [w h | | w h | | encoded]; cbn [step].
  - unfold profile_onload. apply tryMerge_effect; reflexivity.
  - unfold profile_onerror.
    destruct (reject_keeps_urls ProfileDecodeError (revoke_both r)) as [E1 E2].
    rewrite E1, E2. repeat split. right. apply reject_cleaned_up; reflexivity.
  - unfold frame_onload. apply tryMerge_effect; reflexivity.
  - unfold frame_onerror.
    destruct (reject_keeps_urls FrameDecodeError (revoke_both r)) as [E1 E2].
    rewrite E1, E2. repeat split. right. apply reject_cleaned_up; reflexivity.
  - destruct (toBlob_pending r) as [| b rest].
    + repeat split. left. split; reflexivity.
    + unfold toBlob_callback. destruct encoded.
      * destruct (resolve_keeps_urls b (revoke_both (set_toBlob_pending rest r))) as [E1 E2].
        rewrite E1, E2. repeat split. right. apply resolve_cleaned_up; reflexivity.
      * destruct (reject_keeps_urls EncodeError (revoke_both (set_toBlob_pending rest r)))
          as [E1 E2].
        rewrite E1, E2. repeat split. right. apply reject_cleaned_up; reflexivity.
Qed.

(** The cleanup invariant: a settled promise has both URLs revoked; and
    no handler ever adds a live URL. *)
Lemma step_invariant (r : Run num) (e : Event) :
  (promise r <> Pending -> released r) ->
  incl (live (urls (step r e))) (live (urls r))
  /\ (promise (step r e) <> Pending -> released (step r e)).
Proof.
  intros Hinv.
  destruct (step_effect r e) as (Hpu & Hfu & [[Hu Hp] | (Hu & Hset & Hkeep)]).
  - rewrite Hu, Hp. split; [apply incl_refl|].
    intros Hs. unfold released. rewrite Hu, Hpu, Hfu. exact (Hinv Hs).
  - rewrite Hu, revoke_both_urls. split; [apply remove_twice_incl|].
    intros _. unfold released. rewrite Hu, Hpu, Hfu, revoke_both_urls.
    apply remove_twice_clean.
Qed.

Lemma run_invariant (events : list Event) :
  forall r : Run num,
    (promise r <> Pending -> released r) ->
    profileUrl (run events r) = profileUrl r
    /\ frameUrl (run events r) = frameUrl r
    /\ incl (live (urls (run events r))) (live (urls r))
    /\ (promise (run events r) <> Pending -> released (run events r)).
Proof.
  induction events as [| e events IH]; intros r Hinv.
  - cbn. split; [reflexivity|]. split; [reflexivity|].
    split; [apply incl_refl | exact Hinv].
  - cbn [run fold_left].
    destruct (@step_invariant r e Hinv) as [Hincl Hinv'].
    destruct (step_effect r e) as (Hpu & Hfu & _).
    destruct (IH (step r e) Hinv') as (Hpu' & Hfu' & Hincl' & Hrel).
    unfold run in *. rewrite Hpu', Hfu', Hpu, Hfu.
    split; [reflexivity|]. split; [reflexivity|].
    split; [eapply incl_tran; eassumption | exact Hrel].
Qed.

(** When an image never loads, [tryMerge] never gets past its first
    line, no encoding is ever requested, and only the error handlers
    settle the promise. *)
Lemma reject_promise (e : Error) (r : Run num) :
  promise (reject e r)
  = match promise r with Pending => Rejected e | p => p end.
Proof.
  unfold reject. destruct (promise r) eqn:E; cbn [promise set_promise];
    try rewrite E; reflexivity.
Qed.

Lemma reject_flags (e : Error) (r : Run num) :
  profileLoaded (reject e r) = profileLoaded r
  /\ frameLoaded (reject e r) = frameLoaded r
  /\ toBlob_pending (reject e r) = toBlob_pending r.
Proof. unfold reject. destruct (promise r); repeat split. Qed.

Lemma step_profile_never_loads (r : Run num) (e : Event) :
  profileLoaded r = false -> toBlob_pending r = [] ->
  is_profile_load e = false ->
  profileLoaded (step r e) = false
  /\ toBlob_pending (step r e) = []
  /\ promise (step r e) = decode_outcome (promise r) e.
Proof.
  intros Hl Hq He.
  destruct e as [w h | | w h | | encoded]; cbn [step]; try discriminate.
  - unfold profile_onerror.
    destruct (reject_flags ProfileDecodeError (revoke_both r)) as (E1 & _ & E3).
    rewrite E1, E3, reject_promise. cbn. rewrite Hl, Hq.
    destruct (promise r); repeat split.
  - unfold frame_onload, tryMerge. cbn. rewrite Hl. cbn. rewrite Hl, Hq.
    destruct (promise r); repeat split.
  - unfold frame_onerror.
    destruct (reject_flags FrameDecodeError (revoke_both r)) as (E1 & _ & E3).
    rewrite E1, E3, reject_promise. cbn. rewrite Hl, Hq.
    destruct (promise r); repeat split.
  - rewrite Hq, Hl. destruct (promise r); repeat split; assumption.
Qed.

Lemma step_frame_never_loads (r : Run num) (e : Event) :
  frameLoaded r = false -> toBlob_pending r = [] ->
  is_frame_load e = false ->
  frameLoaded (step r e) = false
  /\ toBlob_pending (step r e) = []
  /\ promise (step r e) = decode_outcome (promise r) e.
Proof.
  intros Hl Hq He.
  destruct e as [w h | | w h | | encoded]; cbn [step]; try discriminate.
  - unfold profile_onload, tryMerge. cbn. rewrite Hl. cbn. rewrite Hl, Hq.
    destruct (promise r); repeat split.
  - unfold profile_onerror.
    destruct (reject_flags ProfileDecodeError (revoke_both r)) as (_ & E2 & E3).
    rewrite E2, E3, reject_promise. cbn. rewrite Hl, Hq.
    destruct (promise r); repeat split.
  - unfold frame_onerror.
    destruct (reject_flags FrameDecodeError (revoke_both r)) as (_ & E2 & E3).
    rewrite E2, E3, reject_promise. cbn. rewrite Hl, Hq.
    destruct (promise r); repeat split.
  - rewrite Hq, Hl. destruct (promise r); repeat split; assumption.
Qed.

Lemma run_profile_never_loads (events : list Event) :
  forall r : Run num,
    profileLoaded r = false -> toBlob_pending r = [] ->
    forallb (fun e => negb (is_profile_load e)) events = true ->
    promise (run events r) = fold_left decode_outcome events (promise r).
Proof.
  induction events as [| e events IH]; intros r Hl Hq Hall; [reflexivity|].
  cbn [forallb] in Hall. apply andb_true_iff in Hall. destruct Hall as [He Hall].
  apply negb_true_iff in He.
  destruct (step_profile_never_loads r e Hl Hq He) as (Hl' & Hq' & Hp).
  cbn [run fold_left]. rewrite <- Hp. apply (IH (step r e) Hl' Hq' Hall).
Qed.

Lemma run_frame_never_loads (events : list Event) :
  forall r : Run num,
    frameLoaded r = false -> toBlob_pending r = [] ->
    forallb (fun e => negb (is_frame_load e)) events = true ->
    promise (run events r) = fold_left decode_outcome events (promise r).
Proof.
  induction events as [| e events IH]; intros r Hl Hq Hall; [reflexivity|].
  cbn [forallb] in Hall. apply andb_true_iff in Hall. destruct Hall as [He Hall].
  apply negb_true_iff in He.
  destruct (step_frame_never_loads r e Hl Hq He) as (Hl' & Hq' & Hp).
  cbn [run fold_left]. rewrite <- Hp. apply (IH (step r e) Hl' Hq' Hall).
Qed.

Lemma decode_failure_stays (events : list Event) (p : PromiseState num) :
  decode_failure p -> fold_left decode_outcome events p = p.
Proof.
  intros Hp. induction events as [| e events IH]; [reflexivity|].
  cbn [fold_left].
  replace (decode_outcome p e) with p; [exact IH|].
  destruct Hp as [-> | ->]; reflexivity.
Qed.

Lemma decode_error_rejects (events : list Event) :
  (In ProfileError events \/ In FrameError events) ->
  decode_failure (fold_left decode_outcome events (Pending (num := num))).
Proof.
  induction events as [| e events IH]; intros Hin.
  - destruct Hin as [[] | []].
  - cbn [fold_left].
    destruct e as [w h | | w h | | encoded]; cbn [decode_outcome];
      try (apply IH; destruct Hin as [[E | Hin] | [E | Hin]];
           try discriminate; tauto).
    + rewrite decode_failure_stays; [left; reflexivity | left; reflexivity].
    + rewrite decode_failure_stays; [right; reflexivity | right; reflexivity].
Qed.

(** The join: the first load only records itself; once both images have
    loaded, in either order, [tryMerge] runs past its first line with both
    elements decoded. *)
Lemma profile_loads_first (r : Run num) (w h : N) :
  frameLoaded r = false ->
  step r (ProfileLoad w h) = set_profile (decoded w h (profile r)) true r.
Proof.
  intros Hf. cbn [step]. unfold profile_onload, tryMerge.
  cbn [set_profile profileLoaded frameLoaded profile]. rewrite Hf.
  rewrite orb_true_r. reflexivity.
Qed.

Lemma frame_loads_first (r : Run num) (w h : N) :
  profileLoaded r = false ->
  step r (FrameLoad w h) = set_frame (decoded w h (frame r)) true r.
Proof.
  intros Hp. cbn [step]. unfold frame_onload, tryMerge.
  cbn [set_frame profileLoaded frameLoaded frame]. rewrite Hp.
  reflexivity.
Qed.

Lemma join_either_order (r : Run num) (w h w' h' : N) (events : list Event) :
  profileLoaded r = false -> frameLoaded r = false ->
  events = [ProfileLoad w h; FrameLoad w' h']
  \/ events = [FrameLoad w' h'; ProfileLoad w h] ->
  run events r
  = tryMerge (set_frame (decoded w' h' (frame r)) true
                (set_profile (decoded w h (profile r)) true r)).
Proof.
  intros Hp Hf [-> | ->]; cbn [run fold_left].
  - rewrite (profile_loads_first r w h Hf). reflexivity.
  - rewrite (frame_loads_first r w' h' Hp). reflexivity.
Qed.

Lemma tryMerge_render_fails (r : Run num) :
  profileLoaded r = true -> frameLoaded r = true -> promise r = Pending ->
  guard (profile r) (frame r) = true ->
  promise (tryMerge r) = Rejected InvalidDimensionsError.
Proof.
  intros Hp Hf Hpend Hg. unfold tryMerge. rewrite Hp, Hf. cbn [negb orb].
  rewrite (render_throws (profile r) (frame r) (options r) (canvas r) Hg).
  rewrite reject_promise. cbn. rewrite Hpend. reflexivity.
Qed.

Lemma tryMerge_requests_blob (r : Run num) :
  profileLoaded r = true -> frameLoaded r = true -> toBlob_pending r = [] ->
  guard (profile r) (frame r) = false ->
  let c := fst (renderCompositeToCanvas (profile r) (frame r) (options r) (canvas r)) in
  tryMerge r
  = set_toBlob_pending [{| blob_type := "image/png"; blob_bitmap := c |}]
      (set_canvas c r).
Proof.
  intros Hp Hf Hq Hg. cbv zeta. unfold tryMerge. rewrite Hp, Hf. cbn [negb orb].
  apply guard_false in Hg.
  destruct Hg as (W & Hh & pw & ph & EW & EH & Epw & Eph & HW & HH & Hpw & Hph).
  rewrite (render_draws (profile r) (frame r) (options r) (canvas r)
             EW EH Epw Eph HW HH Hpw Hph).
  cbn [fst]. cbn [set_canvas toBlob_pending]. rewrite Hq. reflexivity.
Qed.

End MergeFacts.

(* ================================================================= *)
(** ** Results *)

(** C1. For images with positive effective dimensions the call returns and
    the second drawing command draws the profile photo with
    - base cover scale [max (canvasWidth / profileWidth) (canvasHeight / profileHeight)],
      where [canvasWidth] and [canvasHeight] are what the canvas holds
      after the call,
    - size [profileWidth * base * profileScale] by
      [profileHeight * base * profileScale] (one factor for both sides),
    - in a coordinate system moved to the centred position
      [(canvasSize - finalSize) / 2 + finalSize / 2] plus the user offset,
      taken as it is, with the rectangle starting at minus half its size;
    in exact arithmetic and without rotation the rectangle therefore
    starts at [(canvasSize - finalSize) / 2 + offset] on the canvas.
    In binary64, a frame of 800x800 and a profile of 400x600 with
    [profileScale = 1] give base scale 2, size 800x1200, horizontal offset 0
    and vertical offset -200. *)
Theorem profile_cover_fit :
  (forall (num : Type) (Num : Number num)
          (profile frame : HTMLImageElement) (options : CompositeOptions num)
          (s : Canvas2D num) (W Hh pw ph : N),
      naturalWidth frame ||| width frame = Some W ->
      naturalHeight frame ||| height frame = Some Hh ->
      naturalWidth profile ||| width profile = Some pw ->
      naturalHeight profile ||| height profile = Some ph ->
      (0 < W)%N -> (0 < Hh)%N -> (0 < pw)%N -> (0 < ph)%N ->
      let profileScale := or_default (of_N 1) (profileScale options) in
      let profileRotation := or_default (of_N 0) (profileRotation options) in
      let profileOffsetX := or_default (of_N 0) (profileOffsetX options) in
      let profileOffsetY := or_default (of_N 0) (profileOffsetY options) in
      exists s' : Canvas2D num,
        renderCompositeToCanvas profile frame options s = (s', inr tt)
        /\ (let canvasWidth := of_N (canvas_width s') in
            let canvasHeight := of_N (canvas_height s') in
            let base := Math_max (canvasWidth / of_N pw) (canvasHeight / of_N ph) in
            let finalWidth := of_N pw * base * profileScale in
            let finalHeight := of_N ph * base * profileScale in
            let centredX := (canvasWidth - finalWidth) / of_N 2 in
            let centredY := (canvasHeight - finalHeight) / of_N 2 in
            nth_error (display s') 1 =
              Some (DrawImage
                      [Translate (centredX + finalWidth / of_N 2 + profileOffsetX)
                                 (centredY + finalHeight / of_N 2 + profileOffsetY);
                       Rotate (profileRotation * Math_PI / of_N 180)]
                      profile
                      (- finalWidth / of_N 2) (- finalHeight / of_N 2)
                      finalWidth finalHeight)))%js
  /\ (forall (profile frame : HTMLImageElement) (options : CompositeOptions R)
             (s : Canvas2D R) (W Hh pw ph : N),
        naturalWidth frame ||| width frame = Some W ->
        naturalHeight frame ||| height frame = Some Hh ->
        naturalWidth profile ||| width profile = Some pw ->
        naturalHeight profile ||| height profile = Some ph ->
        (0 < W)%N -> (0 < Hh)%N -> (0 < pw)%N -> (0 < ph)%N ->
        or_default 0%R (profileRotation options) = 0%R ->
        exists (s' : Canvas2D R) (m : Transform R) (dx dy dw dh : R),
          renderCompositeToCanvas profile frame options s = (s', inr tt)
          /\ nth_error (display s') 1 = Some (DrawImage m profile dx dy dw dh)
          /\ to_canvas m (dx, dy) =
               ((IZR (Z.of_N (canvas_width s')) - dw) / 2
                + or_default 0 (profileOffsetX options),
                (IZR (Z.of_N (canvas_height s')) - dh) / 2
                + or_default 0 (profileOffsetY options))%R)
  /\ (let g := layout (of_N 800) (of_N 800) (of_N 800) (of_N 800)
                 (of_N 400) (of_N 600)
                 1%float (of_N 1) (of_N 0) (of_N 0) (of_N 0) in
      baseProfileScale g = 2%float
      /\ finalProfileWidth g = 800%float
      /\ finalProfileHeight g = 1200%float
      /\ baseProfileOffsetX g = 0%float
      /\ baseProfileOffsetY g = (-200)%float
      /\ forall s : Canvas2D float,
           display (fst (renderCompositeToCanvas
                           (image "profile" 400 600) (image "frame" 800 800)
                           (no_options float) s))
           = [ClearRect identity 0%float 0%float 800%float 800%float;
              DrawImage [Translate 400%float 400%float; Rotate 0%float]
                (image "profile" 400 600)
                (-400)%float (-600)%float 800%float 1200%float;
              DrawImage identity (image "frame" 800 800)
                0%float 0%float 800%float 800%float]).
Proof.
  split; [| split].
  - intros num Num profile frame options s W Hh pw ph EW EH Epw Eph HW HH Hpw Hph.
    cbv zeta.
    rewrite (render_draws profile frame options s EW EH Epw Eph HW HH Hpw Hph).
    eexists. split; [reflexivity|]. reflexivity.
  - intros profile frame options s W Hh pw ph EW EH Epw Eph HW HH Hpw Hph Hrot.
    rewrite (render_draws profile frame options s EW EH Epw Eph HW HH Hpw Hph).
    do 6 eexists. split; [reflexivity|]. split; [reflexivity|].
    cbn [canvas_width canvas_height].
    cbv [to_canvas fold_right apply_op fst snd layout rotationRadians
         profileCenterX profileCenterY finalProfileWidth finalProfileHeight
         of_N add sub mul div neg Math_max Math_PI real_Number].
    change (IZR (Z.of_N 0)) with 0%R. change (IZR (Z.of_N 2)) with 2%R.
    rewrite Hrot.
    replace (0 * PI / IZR (Z.of_N 180))%R with 0%R
      by (change (IZR (Z.of_N 180)) with 180%R; lra).
    rewrite cos_0, sin_0. f_equal; lra.
  - cbv zeta. repeat split; vm_compute; reflexivity.
Qed.

Lemma profile_cover_fit_witness :
  exists s' : Canvas2D float,
    renderCompositeToCanvas (image "profile" 4000 3000) (image "frame" 800 600)
      tilted_options used_canvas = (s', inr tt)
    /\ nth_error (display s') 1 =
         Some (DrawImage
                 [Translate 520%float 225%float;
                  Rotate (33 * float_PI / 180)%float]
                 (image "profile" 4000 3000)
                 (-1000)%float (-750)%float 2000%float 1500%float).
Proof.
  destruct (proj1 profile_cover_fit float float_Number
              (image "profile" 4000 3000) (image "frame" 800 600)
              tilted_options used_canvas 800%N 600%N 4000%N 3000%N
              eq_refl eq_refl eq_refl eq_refl eq_refl eq_refl eq_refl eq_refl)
    as (s' & Hrun & Hdraw).
  exists s'. split; [exact Hrun|].
  cbv zeta in Hdraw. rewrite Hdraw.
  apply (f_equal fst) in Hrun. cbn [fst] in Hrun. subst s'.
  vm_compute. reflexivity.
Defined.

(** C2 (amended). Whatever the profile photo and the parameters, a call
    that returns leaves the canvas with the size that assigning the
    frame's effective width and height gives it: exactly that width when
    it is at most 2147483647, the largest value a canvas dimension holds,
    and likewise for the height. *)
Theorem surface_has_frame_size :
  forall (num : Type) (Num : Number num)
         (profile frame : HTMLImageElement) (options : CompositeOptions num)
         (s s' : Canvas2D num) (W Hh : N),
    naturalWidth frame ||| width frame = Some W ->
    naturalHeight frame ||| height frame = Some Hh ->
    renderCompositeToCanvas profile frame options s = (s', inr tt) ->
    canvas_width s' = canvas_dimension default_width W
    /\ canvas_height s' = canvas_dimension default_height Hh
    /\ ((W <= 2147483647)%N -> canvas_width s' = W)
    /\ ((Hh <= 2147483647)%N -> canvas_height s' = Hh).
Proof.
  intros num Num profile frame options s s' W Hh EW EH Hrun.
  destruct (render_cases profile frame options s) as [[_ Hthrow] | [_ Hok]].
  - rewrite Hthrow in Hrun. discriminate.
  - destruct Hok as (W' & H' & pw & ph & EW' & EH' & Epw & Eph & HW & HH & Hpw & Hph).
    rewrite (render_draws profile frame options s EW' EH' Epw Eph HW HH Hpw Hph) in Hrun.
    assert (W' = W) by congruence. assert (H' = Hh) by congruence. subst W' H'.
    inversion Hrun; subst s'; cbn [canvas_width canvas_height].
    split; [reflexivity|]. split; [reflexivity|].
    split; intros Hfit; apply canvas_dimension_fits; exact Hfit.
Qed.

Lemma surface_has_frame_size_witness :
  let profile := image "profile" 4000 3000 in
  let frame := image "frame" 800 600 in
  let s' := fst (renderCompositeToCanvas profile frame tilted_options used_canvas) in
  canvas_width s' = 800%N /\ canvas_height s' = 600%N.
Proof.
  cbv zeta.
  destruct (@surface_has_frame_size float float_Number
              (image "profile" 4000 3000) (image "frame" 800 600)
              tilted_options used_canvas
              (fst (renderCompositeToCanvas (image "profile" 4000 3000)
                      (image "frame" 800 600) tilted_options used_canvas))
              800%N 600%N eq_refl eq_refl)
    as (_ & _ & Hwidth & Hheight).
  - vm_compute. reflexivity.
  - split; [apply Hwidth | apply Hheight]; vm_compute; discriminate.
Defined.

(** The claim as stated fails for a frame wider than a canvas can be: a
    frame of 2147483648 by 7 leaves a canvas 300 wide. *)
Lemma surface_has_frame_size_counterexample :
  let profile := image "profile" 400 600 in
  let frame := image "frame" 2147483648 7 in
  naturalWidth frame ||| width frame = Some 2147483648%N
  /\ naturalHeight frame ||| height frame = Some 7%N
  /\ exists s' : Canvas2D float,
       renderCompositeToCanvas profile frame (no_options float) used_canvas
       = (s', inr tt)
       /\ canvas_width s' = 300%N
       /\ canvas_height s' = 7%N
       /\ canvas_width s' <> 2147483648%N.
Proof.
  cbv zeta. split; [reflexivity|]. split; [reflexivity|].
  eexists. split; [vm_compute; reflexivity|].
  split; [reflexivity|]. split; [reflexivity | discriminate].
Qed.

(** C3. A call that returns has issued exactly three drawing commands, in
    this order: clear the whole canvas, draw the profile photo under its
    transform, draw the frame under the identity transform.  Hence, under
    any rasteriser, a pixel where the frame contributes a transparent
    colour shows what the profile contributes there, and a pixel where the
    frame contributes an opaque colour shows that colour. *)
Theorem draw_order :
  forall (num : Type) (Num : Number num) (browser : Rasteriser num)
         (profile frame : HTMLImageElement) (options : CompositeOptions num)
         (s s' : Canvas2D num),
    renderCompositeToCanvas profile frame options s = (s', inr tt) ->
    exists (m : Transform num) (dx dy dw dh fx fy fw fh : num),
      display s' =
        [ClearRect identity (of_N 0) (of_N 0)
           (of_N (canvas_width s')) (of_N (canvas_height s'));
         DrawImage m profile dx dy dw dh;
         DrawImage identity frame fx fy fw fh]
      /\ forall p : Pixel,
           let profile_colour := sample browser m profile dx dy dw dh p in
           let frame_colour := sample browser identity frame fx fy fw fh p in
           (frame_colour = Transparent ->
            pixel_of browser (display s') p = profile_colour)
           /\ (is_opaque frame_colour = true ->
               pixel_of browser (display s') p = frame_colour).
Proof.
  intros num Num browser profile frame options s s' Hrun.
  destruct (render_cases profile frame options s) as [[_ Hthrow] | [_ Hok]].
  - rewrite Hthrow in Hrun. discriminate.
  - destruct Hok as (W & Hh & pw & ph & EW & EH & Epw & Eph & HW & HH & Hpw & Hph).
    rewrite (render_draws profile frame options s EW EH Epw Eph HW HH Hpw Hph) in Hrun.
    inversion Hrun; subst s'; clear Hrun. cbn [display canvas_width canvas_height].
    do 9 eexists. split; [reflexivity|].
    intros p. cbv zeta. unfold pixel_of. cbn [fold_left paint].
    assert (Hclear : forall c : bool,
               (if c then Transparent else Transparent) = Transparent)
      by (intros c; destruct c; reflexivity).
    rewrite Hclear, source_over_empty. split.
    + intros Hf. rewrite Hf. apply source_over_transparent.
    + intros Hf. now apply source_over_opaque.
Qed.

Lemma draw_order_witness :
  let profile := image "profile" 400 600 in
  let frame := image "frame" 800 800 in
  let s' := fst (renderCompositeToCanvas profile frame (no_options float) used_canvas) in
  List.length (display s') = 3%nat
  /\ pixel_of (flat_rasteriser float) (display s') (100, 100)%Z = Ink 0 0 255 255
  /\ pixel_of (flat_rasteriser float) (display s') (700, 100)%Z = Ink 255 0 0 255.
Proof.
  cbv zeta.
  destruct (@draw_order float float_Number (flat_rasteriser float)
              (image "profile" 400 600) (image "frame" 800 800) (no_options float)
              used_canvas
              (fst (renderCompositeToCanvas (image "profile" 400 600)
                      (image "frame" 800 800) (no_options float) used_canvas))
              eq_refl)
    as (m & dx & dy & dw & dh & fx & fy & fw & fh & Hdisplay & Hpixels).
  split; [rewrite Hdisplay; reflexivity|].
  split.
  - rewrite (proj1 (Hpixels (100, 100)%Z) eq_refl). reflexivity.
  - rewrite (proj2 (Hpixels (700, 100)%Z) eq_refl). reflexivity.
Defined.

(** C4. For images with positive effective dimensions there are a centre
    point, a final size and a frame command such that, whatever the
    rotation in degrees, the call returns, on a canvas of the size that
    the frame's dimensions give it, having drawn the profile under
    the transform "translate to the centre, rotate by
    [degrees * PI / 180]" with the rectangle starting at minus half the
    final size, and then that same frame command under the identity
    transform, and leaves the identity transform in force with nothing
    saved.  In exact arithmetic the centre of the profile rectangle lands
    on the canvas centre plus the user offset for every angle, so on the
    canvas centre for 0 and for 180 degrees with zero offsets.  In
    binary64, a 400x600 profile on an 800x800 frame is drawn around
    (400, 400) both for 0 and for 180 degrees. *)
Theorem rotation_about_profile_center :
  (forall (num : Type) (Num : Number num)
          (profile frame : HTMLImageElement) (options : CompositeOptions num)
          (s : Canvas2D num) (W Hh pw ph : N),
      naturalWidth frame ||| width frame = Some W ->
      naturalHeight frame ||| height frame = Some Hh ->
      naturalWidth profile ||| width profile = Some pw ->
      naturalHeight profile ||| height profile = Some ph ->
      (0 < W)%N -> (0 < Hh)%N -> (0 < pw)%N -> (0 < ph)%N ->
      let canvasWidth := canvas_dimension default_width W in
      let canvasHeight := canvas_dimension default_height Hh in
      exists (centerX centerY finalWidth finalHeight fx fy fw fh : num),
        forall rotation : option num,
          renderCompositeToCanvas profile frame
            (with_profileRotation rotation options) s
          = ({| canvas_width := canvasWidth; canvas_height := canvasHeight;
                ctm := identity; saved := [];
                display :=
                  [ClearRect identity (of_N 0) (of_N 0)
                     (of_N canvasWidth) (of_N canvasHeight);
                   DrawImage
                     [Translate centerX centerY;
                      Rotate (or_default (of_N 0) rotation * Math_PI / of_N 180)]
                     profile
                     (- finalWidth / of_N 2) (- finalHeight / of_N 2)
                     finalWidth finalHeight;
                   DrawImage identity frame fx fy fw fh] |},
             inr tt))%js
  /\ (forall (profile frame : HTMLImageElement) (options : CompositeOptions R)
             (s : Canvas2D R) (W Hh pw ph : N),
        naturalWidth frame ||| width frame = Some W ->
        naturalHeight frame ||| height frame = Some Hh ->
        naturalWidth profile ||| width profile = Some pw ->
        naturalHeight profile ||| height profile = Some ph ->
        (0 < W)%N -> (0 < Hh)%N -> (0 < pw)%N -> (0 < ph)%N ->
        forall rotation : option R,
        exists (s' : Canvas2D R) (m : Transform R) (dx dy dw dh : R),
          renderCompositeToCanvas profile frame
            (with_profileRotation rotation options) s = (s', inr tt)
          /\ nth_error (display s') 1 = Some (DrawImage m profile dx dy dw dh)
          /\ to_canvas m (rect_center dx dy dw dh)
             = (IZR (Z.of_N (canvas_width s')) / 2
                + or_default 0 (profileOffsetX options),
                IZR (Z.of_N (canvas_height s')) / 2
                + or_default 0 (profileOffsetY options))%R)
  /\ (forall s : Canvas2D float,
        let profile := image "profile" 400 600 in
        let frame := image "frame" 800 800 in
        let turned degrees :=
          nth_error
            (display (fst (renderCompositeToCanvas profile frame
                             (with_profileRotation (Some degrees) (no_options float))
                             s))) 1 in
        turned 0%float
        = Some (DrawImage [Translate 400%float 400%float; Rotate 0%float]
                  profile (-400)%float (-600)%float 800%float 1200%float)
        /\ turned 180%float
           = Some (DrawImage [Translate 400%float 400%float; Rotate float_PI]
                     profile (-400)%float (-600)%float 800%float 1200%float)).
Proof.
  split; [| split].
  - intros num Num profile frame options s W Hh pw ph EW EH Epw Eph HW HH Hpw Hph.
    cbv zeta. do 8 eexists. intros rotation.
    rewrite (render_draws profile frame (with_profileRotation rotation options) s
               EW EH Epw Eph HW HH Hpw Hph).
    cbv [layout with_profileRotation
         profileScale frameScale profileRotation profileOffsetX profileOffsetY
         scaledFrameWidth scaledFrameHeight finalProfileWidth finalProfileHeight
         profileCenterX profileCenterY rotationRadians frameOffsetX frameOffsetY].
    reflexivity.
  - intros profile frame options s W Hh pw ph EW EH Epw Eph HW HH Hpw Hph rotation.
    rewrite (render_draws profile frame (with_profileRotation rotation options) s
               EW EH Epw Eph HW HH Hpw Hph).
    do 6 eexists. split; [reflexivity|]. split; [reflexivity|].
    cbn [canvas_width canvas_height].
    cbv [to_canvas fold_right apply_op fst snd rect_center layout rotationRadians
         profileCenterX profileCenterY finalProfileWidth finalProfileHeight
         with_profileRotation profileScale profileOffsetX profileOffsetY
         of_N add sub mul div neg Math_max Math_PI real_Number].
    change (IZR (Z.of_N 0)) with 0%R. change (IZR (Z.of_N 2)) with 2%R.
    set (angle := (_ * PI / _)%R).
    set (fw := (_ * _ * _)%R). set (fh := (_ * _ * _)%R).
    replace (- fw / 2 + fw / 2)%R with 0%R by lra.
    replace (- fh / 2 + fh / 2)%R with 0%R by lra.
    f_equal; lra.
  - intros s. cbv zeta. split; vm_compute; reflexivity.
Qed.

Lemma rotation_about_profile_center_witness :
  exists (centerX centerY finalWidth finalHeight fx fy fw fh : float),
    forall rotation : option float,
      renderCompositeToCanvas (image "profile" 4000 3000) (image "frame" 800 600)
        (with_profileRotation rotation tilted_options) used_canvas
      = ({| canvas_width := 800; canvas_height := 600;
            ctm := identity; saved := [];
            display :=
              [ClearRect identity 0%float 0%float 800%float 600%float;
               DrawImage
                 [Translate centerX centerY;
                  Rotate (or_default 0%float rotation * float_PI / 180)%float]
                 (image "profile" 4000 3000)
                 (- finalWidth / 2)%float (- finalHeight / 2)%float
                 finalWidth finalHeight;
               DrawImage identity (image "frame" 800 600) fx fy fw fh] |},
         inr tt).
Proof.
  exact (proj1 rotation_about_profile_center float float_Number
           (image "profile" 4000 3000) (image "frame" 800 600)
           tilted_options used_canvas 800%N 600%N 4000%N 3000%N
           eq_refl eq_refl eq_refl eq_refl eq_refl eq_refl eq_refl eq_refl).
Defined.

(** C5. The call throws the invalid-dimensions error exactly when one of
    the four effective dimensions is zero or undefined; it throws nothing
    else, and when it throws the canvas is as it was: not resized, not
    cleared, nothing drawn. *)
Theorem invalid_dimensions_guard :
  forall (num : Type) (Num : Number num)
         (profile frame : HTMLImageElement) (options : CompositeOptions num)
         (s : Canvas2D num),
    (snd (renderCompositeToCanvas profile frame options s) = inl InvalidDimensionsError
     <-> (zero_or_undefined (naturalWidth frame ||| width frame)
          \/ zero_or_undefined (naturalHeight frame ||| height frame)
          \/ zero_or_undefined (naturalWidth profile ||| width profile)
          \/ zero_or_undefined (naturalHeight profile ||| height profile)))
    /\ (forall e : Error,
          snd (renderCompositeToCanvas profile frame options s) = inl e ->
          e = InvalidDimensionsError
          /\ fst (renderCompositeToCanvas profile frame options s) = s).
Proof.
  intros num Num profile frame options s.
  destruct (render_cases profile frame options s) as [[Hbad Hthrow] | [_ Hok]].
  - rewrite Hthrow; simpl. apply guard_true in Hbad. split.
    + split; [intros _; exact Hbad | reflexivity].
    + intros e E. inversion E. split; reflexivity.
  - destruct Hok as (W & Hh & pw & ph & EW & EH & Epw & Eph & HW & HH & Hpw & Hph).
    rewrite (render_draws profile frame options s EW EH Epw Eph HW HH Hpw Hph); simpl.
    split.
    + split; [discriminate|].
      unfold zero_or_undefined. rewrite EW, EH, Epw, Eph.
      intros [[E|E] | [[E|E] | [[E|E] | [E|E]]]];
        try discriminate; inversion E; subst; lia.
    + intros e E. discriminate.
Qed.

Lemma invalid_dimensions_guard_witness :
  let profile := image "profile" 0 600 in
  let frame := image "frame" 800 800 in
  renderCompositeToCanvas profile frame (no_options float) used_canvas
  = (used_canvas, inl InvalidDimensionsError).
Proof.
  cbv zeta.
  pose proof (@invalid_dimensions_guard float float_Number
                (image "profile" 0 600) (image "frame" 800 800)
                (no_options float) used_canvas) as [[_ Hthrows] Honly].
  assert (E : snd (renderCompositeToCanvas (image "profile" 0 600)
                     (image "frame" 800 800) (no_options float) used_canvas)
              = inl InvalidDimensionsError).
  { apply Hthrows. right; right; left. right. reflexivity. }
  destruct (Honly _ E) as [_ Hsame].
  rewrite (surjective_pairing (renderCompositeToCanvas _ _ _ _)).
  rewrite E, Hsame. reflexivity.
Defined.

(** C6. Without a 2D context [mergeImages] rejects at once and creates no
    URL.  Otherwise it creates the two object URLs and leaves the promise
    pending, and from there, for every sequence of browser events:
    - whenever the promise is settled, both URLs are revoked and every URL
      still live was live before the call (nothing leaks);
    - if a source fails to decode (its error event arrives and it never
      loads), the promise is rejected with a decode error;
    - once both images have loaded, in either order: if the compositor
      throws (a zero dimension), the promise is rejected with the error it
      threw; otherwise the promise waits for the encoder and is resolved
      with the PNG blob of the rendered canvas, or rejected with the encode
      error when no blob is produced; both URLs are revoked in each case. *)
Theorem mergeImages_releases_urls :
  forall (num : Type) (Num : Number num)
         (profileImage frameImage : File) (opts : CompositeOptions num)
         (store : URLStore),
    mergeImages profileImage frameImage opts false store
    = NoContext store (Rejected ContextError)
    /\ exists r0 : Run num,
         mergeImages profileImage frameImage opts true store = Loading r0
         /\ promise r0 = Pending
         /\ live (urls r0) = frameUrl r0 :: profileUrl r0 :: live store
         /\ (forall events : list Event,
               let r := run events r0 in
               promise r <> Pending ->
               released r /\ incl (live (urls r)) (live store))
         /\ (forall events : list Event,
               (In ProfileError events
                /\ forallb (fun e => negb (is_profile_load e)) events = true)
               \/ (In FrameError events
                   /\ forallb (fun e => negb (is_frame_load e)) events = true) ->
               decode_failure (promise (run events r0)))
         /\ (forall (w h w' h' : N) (events : list Event),
               events = [ProfileLoad w h; FrameLoad w' h']
               \/ events = [FrameLoad w' h'; ProfileLoad w h] ->
               let P := image (profileUrl r0) w h in
               let F := image (frameUrl r0) w' h' in
               let r := run events r0 in
               (guard P F = true ->
                promise r = Rejected InvalidDimensionsError /\ released r)
               /\ (guard P F = false ->
                   let blob :=
                     {| blob_type := "image/png";
                        blob_bitmap :=
                          fst (renderCompositeToCanvas P F (destructured opts)
                                 new_canvas) |} in
                   promise r = Pending
                   /\ promise (step r (BlobDone true)) = Resolved blob
                   /\ released (step r (BlobDone true))
                   /\ promise (step r (BlobDone false)) = Rejected EncodeError
                   /\ released (step r (BlobDone false)))).
Proof.
  intros num Num profileImage frameImage opts store.
  split; [reflexivity|].
  eexists. split; [reflexivity|].
  match goal with |- promise ?x = _ /\ _ => set (r0 := x) end.
  assert (Hinit : promise r0 <> Pending -> released r0)
    by (intros Hs; exfalso; apply Hs; reflexivity).
  assert (Hclean : forall events : list Event,
             promise (run events r0) <> Pending ->
             released (run events r0)
             /\ incl (live (urls (run events r0))) (live store)).
  { intros events Hs.
    destruct (run_invariant events Hinit) as (Hpu & Hfu & Hincl & Hrel).
    pose proof (Hrel Hs) as Hreleased. split; [exact Hreleased|].
    intros u Hu. pose proof (Hincl u Hu) as Hin.
    destruct Hreleased as [Hnp Hnf]. rewrite Hpu in Hnp. rewrite Hfu in Hnf.
    cbn [r0 urls live] in Hin. cbn [r0 profileUrl frameUrl] in Hnp, Hnf.
    destruct Hin as [E | [E | Hin]]; [subst u; tauto | subst u; tauto | exact Hin]. }
  split; [reflexivity|]. split; [reflexivity|].
  split; [exact Hclean|].
  split.
  - intros events [[Hin Hall] | [Hin Hall]].
    + rewrite (run_profile_never_loads events r0 eq_refl eq_refl Hall).
      apply decode_error_rejects. now left.
    + rewrite (run_frame_never_loads events r0 eq_refl eq_refl Hall).
      apply decode_error_rejects. now right.
  - intros w h w' h' events Hev. cbv zeta.
    pose proof (join_either_order r0 eq_refl eq_refl Hev) as Hjoin.
    set (loaded := set_frame (decoded w' h' (frame r0)) true
                     (set_profile (decoded w h (profile r0)) true r0)) in Hjoin.
    split.
    + intros Hg.
      assert (Hrej : promise (run events r0) = Rejected InvalidDimensionsError).
      { rewrite Hjoin. apply tryMerge_render_fails; try reflexivity. exact Hg. }
      split; [exact Hrej|].
      apply Hclean. rewrite Hrej. discriminate.
    + intros Hg.
      assert (Hreq : run events r0
                     = set_toBlob_pending
                         [{| blob_type := "image/png";
                             blob_bitmap :=
                               fst (renderCompositeToCanvas (profile loaded) (frame loaded)
                                      (options loaded) (canvas loaded)) |}]
                         (set_canvas
                            (fst (renderCompositeToCanvas (profile loaded) (frame loaded)
                                    (options loaded) (canvas loaded))) loaded)).
      { rewrite Hjoin. apply tryMerge_requests_blob; try reflexivity. exact Hg. }
      assert (Hdone : forall b : bool,
                 step (run events r0) (BlobDone b) = run (events ++ [BlobDone b]) r0).
      { intros b. unfold run. rewrite fold_left_app. reflexivity. }
      assert (Hyes : promise (step (run events r0) (BlobDone true))
                     = Resolved {| blob_type := "image/png";
                                   blob_bitmap :=
                                     fst (renderCompositeToCanvas
                                            (image (profileUrl r0) w h)
                                            (image (frameUrl r0) w' h')
                                            (destructured opts) new_canvas) |})
        by (rewrite Hreq; reflexivity).
      assert (Hno : promise (step (run events r0) (BlobDone false))
                    = Rejected EncodeError)
        by (rewrite Hreq; reflexivity).
      split; [rewrite Hreq; reflexivity|].
      split; [exact Hyes|].
      split; [rewrite Hdone; apply Hclean; rewrite <- Hdone, Hyes; discriminate|].
      split; [exact Hno|].
      rewrite Hdone. apply Hclean. rewrite <- Hdone, Hno. discriminate.
Qed.

Lemma mergeImages_releases_urls_witness :
  exists r0 : Run float,
    mergeImages {| file_name := "me.jpg" |} {| file_name := "frame.png" |}
      tilted_options true busy_store = Loading r0
    /\ decode_failure (promise (run [FrameLoad 800 800; ProfileError] r0))
    /\ (let r := run [FrameLoad 800 800; ProfileLoad 0 600] r0 in
        promise r = Rejected InvalidDimensionsError /\ released r)
    /\ (let r := run [ProfileLoad 400 600; FrameLoad 800 800] r0 in
        promise r = Pending
        /\ released (step r (BlobDone true))
        /\ promise (step r (BlobDone false)) = Rejected EncodeError
        /\ released (step r (BlobDone false))).
Proof.
  destruct (@mergeImages_releases_urls float float_Number
              {| file_name := "me.jpg" |} {| file_name := "frame.png" |}
              tilted_options busy_store)
    as [_ (r0 & Hstart & _ & _ & _ & Hdecode & Hjoin)].
  exists r0. split; [exact Hstart|]. split.
  - apply Hdecode. left. split; [right; left; reflexivity | reflexivity].
  - split.
    + apply (proj1 (Hjoin 0%N 600%N 800%N 800%N _ (or_intror eq_refl))).
      reflexivity.
    + destruct (proj2 (Hjoin 400%N 600%N 800%N 800%N _ (or_introl eq_refl)) eq_refl)
        as (Hpending & _ & Hrel1 & Hno & Hrel2).
      cbv zeta. split; [exact Hpending|]. split; [exact Hrel1|].
      split; [exact Hno | exact Hrel2].
Defined.

(** The same paths, run: the URLs created are "blob:8" and "blob:9", and
    when the promise settles the store is back to what it was. *)
Example mergeImages_runs :
  match mergeImages {| file_name := "me.jpg" |} {| file_name := "frame.png" |}
          tilted_options true busy_store with
  | NoContext _ _ => False
  | Loading r0 =>
      live (urls r0) = ["blob:9"; "blob:8"; "blob:0"; "blob:7"]%string
      /\ (let r := run [FrameLoad 800 600; ProfileLoad 4000 3000] r0 in
          promise r = Pending
          /\ live (urls r) = ["blob:9"; "blob:8"; "blob:0"; "blob:7"]%string
          /\ List.length (toBlob_pending r) = 1%nat
          /\ canvas_width (canvas r) = 800%N /\ canvas_height (canvas r) = 600%N)
      /\ (let r := run [FrameLoad 800 600; ProfileLoad 4000 3000; BlobDone true] r0 in
          (exists blob, promise r = Resolved blob /\ blob_type blob = "image/png"%string)
          /\ live (urls r) = ["blob:0"; "blob:7"]%string)
      /\ (let r := run [ProfileError; FrameLoad 800 600; BlobDone true] r0 in
          promise r = Rejected ProfileDecodeError
          /\ live (urls r) = ["blob:0"; "blob:7"]%string)
      /\ (let r := run [ProfileLoad 4000 3000; FrameLoad 0 0] r0 in
          promise r = Rejected InvalidDimensionsError
          /\ live (urls r) = ["blob:0"; "blob:7"]%string)
  end.
Proof.
  vm_compute. repeat split; try reflexivity.
  eexists. split; reflexivity.
Qed.

(** C7 (amended). For images with positive effective dimensions the third
    drawing command draws the frame, under the identity transform, at size
    [frameWidth * frameScale] by [frameHeight * frameScale] and at offset
    [(canvasSize - scaledFrameSize) / 2], where [canvasSize] is what the
    canvas holds after the call; in exact arithmetic the centre of that
    rectangle is the centre of the canvas for every [frameScale].  With
    [frameScale = 1] and frame dimensions of at most 2147483647, which the
    canvas then takes over, the rectangle is the whole canvas, in exact
    arithmetic and in binary64. *)
Theorem frame_scaled_about_center :
  (forall (num : Type) (Num : Number num)
          (profile frame : HTMLImageElement) (options : CompositeOptions num)
          (s : Canvas2D num) (W Hh pw ph : N),
      naturalWidth frame ||| width frame = Some W ->
      naturalHeight frame ||| height frame = Some Hh ->
      naturalWidth profile ||| width profile = Some pw ->
      naturalHeight profile ||| height profile = Some ph ->
      (0 < W)%N -> (0 < Hh)%N -> (0 < pw)%N -> (0 < ph)%N ->
      let frameScale := or_default (of_N 1) (frameScale options) in
      exists s' : Canvas2D num,
        renderCompositeToCanvas profile frame options s = (s', inr tt)
        /\ nth_error (display s') 2 =
             Some (DrawImage identity frame
                     ((of_N (canvas_width s') - of_N W * frameScale) / of_N 2)
                     ((of_N (canvas_height s') - of_N Hh * frameScale) / of_N 2)
                     (of_N W * frameScale) (of_N Hh * frameScale)))%js
  /\ (forall (profile frame : HTMLImageElement) (options : CompositeOptions R)
             (s : Canvas2D R) (W Hh pw ph : N),
        naturalWidth frame ||| width frame = Some W ->
        naturalHeight frame ||| height frame = Some Hh ->
        naturalWidth profile ||| width profile = Some pw ->
        naturalHeight profile ||| height profile = Some ph ->
        (0 < W)%N -> (0 < Hh)%N -> (0 < pw)%N -> (0 < ph)%N ->
        exists (s' : Canvas2D R) (dx dy dw dh : R),
          renderCompositeToCanvas profile frame options s = (s', inr tt)
          /\ nth_error (display s') 2 = Some (DrawImage identity frame dx dy dw dh)
          /\ to_canvas identity (rect_center dx dy dw dh)
             = (IZR (Z.of_N (canvas_width s')) / 2,
                IZR (Z.of_N (canvas_height s')) / 2)%R
          /\ (or_default 1%R (frameScale options) = 1%R ->
              (W <= 2147483647)%N -> (Hh <= 2147483647)%N ->
              dx = 0%R /\ dy = 0%R
              /\ dw = IZR (Z.of_N (canvas_width s'))
              /\ dh = IZR (Z.of_N (canvas_height s'))))
  /\ (forall (profile frame : HTMLImageElement) (options : CompositeOptions float)
             (s : Canvas2D float) (W Hh pw ph : N),
        naturalWidth frame ||| width frame = Some W ->
        naturalHeight frame ||| height frame = Some Hh ->
        naturalWidth profile ||| width profile = Some pw ->
        naturalHeight profile ||| height profile = Some ph ->
        (0 < W)%N -> (0 < Hh)%N -> (0 < pw)%N -> (0 < ph)%N ->
        (W <= 2147483647)%N -> (Hh <= 2147483647)%N ->
        or_default 1%float (frameScale options) = 1%float ->
        let s' := fst (renderCompositeToCanvas profile frame options s) in
        nth_error (display s') 2
        = Some (DrawImage identity frame
                  0%float 0%float
                  (float_of_N (canvas_width s')) (float_of_N (canvas_height s')))
        /\ canvas_width s' = W /\ canvas_height s' = Hh).
Proof.
  split; [| split].
  - intros num Num profile frame options s W Hh pw ph EW EH Epw Eph HW HH Hpw Hph.
    cbv zeta.
    rewrite (render_draws profile frame options s EW EH Epw Eph HW HH Hpw Hph).
    eexists. split; reflexivity.
  - intros profile frame options s W Hh pw ph EW EH Epw Eph HW HH Hpw Hph.
    rewrite (render_draws profile frame options s EW EH Epw Eph HW HH Hpw Hph).
    do 5 eexists. split; [reflexivity|]. split; [reflexivity|].
    cbn [canvas_width canvas_height].
    cbv [to_canvas identity fold_right rect_center layout
         frameOffsetX frameOffsetY scaledFrameWidth scaledFrameHeight
         of_N add sub mul div neg Math_max Math_PI real_Number].
    change (IZR (Z.of_N 1)) with 1%R. change (IZR (Z.of_N 2)) with 2%R.
    split.
    + f_equal; lra.
    + intros Hone HWfit HHfit.
      rewrite Hone, (canvas_dimension_fits default_width HWfit),
              (canvas_dimension_fits default_height HHfit).
      repeat split; lra.
  - intros profile frame options s W Hh pw ph EW EH Epw Eph HW HH Hpw Hph
           HWfit HHfit Hone.
    cbv zeta.
    rewrite (render_draws profile frame options s EW EH Epw Eph HW HH Hpw Hph).
    cbv zeta.
    rewrite (canvas_dimension_fits default_width HWfit),
            (canvas_dimension_fits default_height HHfit).
    cbn [fst display nth_error canvas_width canvas_height].
    split; [| split; reflexivity].
    cbv [layout frameOffsetX frameOffsetY scaledFrameWidth scaledFrameHeight
         of_N add sub mul div float_Number].
    change (float_of_N 1) with 1%float. change (float_of_N 2) with 2%float.
    rewrite Hone.
    assert (HWs : (W < 2 ^ 53)%N) by (change (2 ^ 53)%N with 9007199254740992%N; lia).
    assert (HHs : (Hh < 2 ^ 53)%N) by (change (2 ^ 53)%N with 9007199254740992%N; lia).
    destruct (float_fill W HWs) as [EW0 EW1]. destruct (float_fill Hh HHs) as [EH0 EH1].
    rewrite EW0, EW1, EH0, EH1. reflexivity.
Qed.

Lemma frame_scaled_about_center_witness :
  exists s' : Canvas2D float,
    renderCompositeToCanvas (image "profile" 4000 3000) (image "frame" 800 600)
      tilted_options used_canvas = (s', inr tt)
    /\ canvas_width s' = 800%N /\ canvas_height s' = 600%N
    /\ nth_error (display s') 2 =
         Some (DrawImage identity (image "frame" 800 600)
                 200%float 150%float 400%float 300%float).
Proof.
  destruct (proj1 frame_scaled_about_center float float_Number
              (image "profile" 4000 3000) (image "frame" 800 600)
              tilted_options used_canvas 800%N 600%N 4000%N 3000%N
              eq_refl eq_refl eq_refl eq_refl eq_refl eq_refl eq_refl eq_refl)
    as (s' & Hrun & Hframe).
  exists s'. split; [exact Hrun|].
  cbv zeta in Hframe. rewrite Hframe.
  apply (f_equal fst) in Hrun. cbn [fst] in Hrun. subst s'.
  repeat split; vm_compute; reflexivity.
Defined.

(** The claim as stated fails at [frameScale = 1] for a frame wider than
    a canvas can be: a frame of 2147483648 by 7 is drawn 2147483648 wide
    from x = -1073741674 on a canvas 300 wide. *)
Lemma frame_scaled_about_center_counterexample :
  let profile := image "profile" 400 600 in
  let frame := image "frame" 2147483648 7 in
  exists s' : Canvas2D float,
    renderCompositeToCanvas profile frame (no_options float) used_canvas = (s', inr tt)
    /\ canvas_width s' = 300%N /\ canvas_height s' = 7%N
    /\ nth_error (display s') 2
       = Some (DrawImage identity frame
                 (-1073741674)%float 0%float 2147483648%float 7%float)
    /\ nth_error (display s') 2
       <> Some (DrawImage identity frame
                  0%float 0%float
                  (float_of_N (canvas_width s')) (float_of_N (canvas_height s'))).
Proof.
  cbv zeta. eexists. split; [vm_compute; reflexivity|].
  split; [reflexivity|]. split; [reflexivity|].
  split; [vm_compute; reflexivity|].
  intros E.
  apply (f_equal (fun command =>
                    match command with
                    | Some (DrawImage _ _ dx _ _ _) => PrimFloat.ltb dx 0%float
                    | _ => false
                    end)) in E.
  vm_compute in E. discriminate E.
Qed.

(** C8. The outcome of a call does not depend on the canvas it starts
    from: two calls with the same images and parameters have the same
    result, and when they return they leave equal canvases, hence the same
    colour at every pixel under any rasteriser; calling again on the
    canvas just rendered changes nothing. *)
Theorem render_deterministic :
  forall (num : Type) (Num : Number num) (browser : Rasteriser num)
         (profile frame : HTMLImageElement) (options : CompositeOptions num)
         (s1 s2 : Canvas2D num),
    let run1 := renderCompositeToCanvas profile frame options s1 in
    let run2 := renderCompositeToCanvas profile frame options s2 in
    snd run1 = snd run2
    /\ (snd run1 = inr tt ->
        fst run1 = fst run2
        /\ (forall p : Pixel,
              pixel_of browser (display (fst run1)) p
              = pixel_of browser (display (fst run2)) p)
        /\ renderCompositeToCanvas profile frame options (fst run1) = run1)
    /\ (renderCompositeToCanvas profile frame options ;;;
        renderCompositeToCanvas profile frame options) s1 = run1.
Proof.
  intros num Num browser profile frame options s1 s2. cbv zeta.
  destruct (render_cases profile frame options s1) as [[Hbad Hthrow] | [_ Hok]].
  - rewrite (render_throws profile frame options s2 Hbad).
    unfold bind. rewrite Hthrow. simpl. repeat split; discriminate.
  - destruct Hok as (W & Hh & pw & ph & EW & EH & Epw & Eph & HW & HH & Hpw & Hph).
    unfold bind.
    rewrite !(render_draws profile frame options _ EW EH Epw Eph HW HH Hpw Hph).
    simpl. repeat split.
Qed.

Lemma render_deterministic_witness :
  let profile := image "profile" 4000 3000 in
  let frame := image "frame" 800 600 in
  let run1 := renderCompositeToCanvas profile frame tilted_options used_canvas in
  let run2 := renderCompositeToCanvas profile frame tilted_options
                (MergeImages.new_canvas (num := float)) in
  fst run1 = fst run2
  /\ (forall p : Pixel,
        pixel_of (flat_rasteriser float) (display (fst run1)) p
        = pixel_of (flat_rasteriser float) (display (fst run2)) p)
  /\ renderCompositeToCanvas profile frame tilted_options (fst run1) = run1.
Proof.
  cbv zeta.
  apply (proj1 (proj2 (@render_deterministic float float_Number (flat_rasteriser float)
           (image "profile" 4000 3000) (image "frame" 800 600) tilted_options
           used_canvas MergeImages.new_canvas))).
  vm_compute. reflexivity.
Defined.

(** C9. The effective dimension is the natural one, or the element's own
    when the natural one is zero or undefined; the call reads the images
    through it only.  So with positive effective dimensions the call
    returns, sizes the canvas by assigning the frame's effective
    dimensions to it, and lays out both images from the effective
    dimensions and the canvas size; an image whose natural width is zero
    or undefined and whose [width] is positive has that [width] as
    effective width. *)
Theorem natural_dimension_fallback :
  forall (num : Type) (Num : Number num)
         (profile frame : HTMLImageElement) (options : CompositeOptions num)
         (s : Canvas2D num) (W Hh pw ph : N),
    effective_dim (naturalWidth frame) (width frame) = Some W ->
    effective_dim (naturalHeight frame) (height frame) = Some Hh ->
    effective_dim (naturalWidth profile) (width profile) = Some pw ->
    effective_dim (naturalHeight profile) (height profile) = Some ph ->
    (0 < W)%N -> (0 < Hh)%N -> (0 < pw)%N -> (0 < ph)%N ->
    (exists s' : Canvas2D num,
       renderCompositeToCanvas profile frame options s = (s', inr tt)
       /\ canvas_width s' = canvas_dimension default_width W
       /\ canvas_height s' = canvas_dimension default_height Hh
       /\ let g :=
            layout (of_N (canvas_width s')) (of_N (canvas_height s'))
              (of_N W) (of_N Hh) (of_N pw) (of_N ph)
              (or_default (of_N 1) (profileScale options))
              (or_default (of_N 1) (frameScale options))
              (or_default (of_N 0) (profileRotation options))
              (or_default (of_N 0) (profileOffsetX options))
              (or_default (of_N 0) (profileOffsetY options)) in
          nth_error (display s') 1 =
            Some (DrawImage
                    [Translate (profileCenterX g) (profileCenterY g);
                     Rotate (rotationRadians g)]
                    profile
                    (- finalProfileWidth g / of_N 2) (- finalProfileHeight g / of_N 2)
                    (finalProfileWidth g) (finalProfileHeight g))
          /\ nth_error (display s') 2 =
               Some (DrawImage identity frame
                       (frameOffsetX g) (frameOffsetY g)
                       (scaledFrameWidth g) (scaledFrameHeight g)))%js
    /\ (forall (natural : Dim) (w : N),
          zero_or_undefined natural -> (0 < w)%N ->
          natural ||| Some w = Some w
          /\ effective_dim natural (Some w) = Some w).
Proof.
  intros num Num profile frame options s W Hh pw ph EW EH Epw Eph HW HH Hpw Hph.
  rewrite <- js_or_effective in EW, EH, Epw, Eph.
  split.
  - rewrite (render_draws profile frame options s EW EH Epw Eph HW HH Hpw Hph).
    eexists. repeat split.
  - intros natural w Hz Hw. rewrite js_or_effective. unfold effective_dim.
    apply js_not_true in Hz. rewrite Hz. split; reflexivity.
Qed.

Lemma natural_dimension_fallback_witness :
  let profile :=
    {| src := "profile"; naturalWidth := Some 0%N; naturalHeight := None;
       width := Some 400%N; height := Some 600%N |} in
  let frame := image "frame" 800 800 in
  exists s' : Canvas2D float,
    renderCompositeToCanvas profile frame (no_options float) used_canvas = (s', inr tt)
    /\ canvas_width s' = 800%N /\ canvas_height s' = 800%N
    /\ nth_error (display s') 1 =
         Some (DrawImage [Translate 400%float 400%float; Rotate 0%float] profile
                 (-400)%float (-600)%float 800%float 1200%float)
    /\ nth_error (display s') 2 =
         Some (DrawImage identity frame 0%float 0%float 800%float 800%float).
Proof.
  cbv zeta.
  destruct (proj1 (@natural_dimension_fallback float float_Number
              {| src := "profile"; naturalWidth := Some 0%N; naturalHeight := None;
                 width := Some 400%N; height := Some 600%N |}
              (image "frame" 800 800) (no_options float) used_canvas
              800%N 800%N 400%N 600%N
              eq_refl eq_refl eq_refl eq_refl eq_refl eq_refl eq_refl eq_refl))
    as (s' & Hrun & Hwidth & Hheight & Hprofile & Hframe).
  exists s'. split; [exact Hrun|].
  split; [exact Hwidth|]. split; [exact Hheight|].
  rewrite Hprofile, Hframe, Hwidth, Hheight.
  split; vm_compute; reflexivity.
Defined.

(** C10. Two calls on the same canvas, images and parameters that differ
    only in [frameScale] have the same outcome, size the canvas alike, and
    issue the same clearing command and the same profile command
    (transform, i.e. centre point and rotation, and rectangle); likewise
    the base cover scale, the final profile size, the profile centre and
    the rotation of the layout do not depend on [frameScale]. *)
Theorem frameScale_leaves_profile_layer :
  forall (num : Type) (Num : Number num)
         (profile frame : HTMLImageElement) (options : CompositeOptions num)
         (fs1 fs2 : option num) (s : Canvas2D num),
    let run1 := renderCompositeToCanvas profile frame (with_frameScale fs1 options) s in
    let run2 := renderCompositeToCanvas profile frame (with_frameScale fs2 options) s in
    snd run1 = snd run2
    /\ canvas_width (fst run1) = canvas_width (fst run2)
    /\ canvas_height (fst run1) = canvas_height (fst run2)
    /\ nth_error (display (fst run1)) 0 = nth_error (display (fst run2)) 0
    /\ nth_error (display (fst run1)) 1 = nth_error (display (fst run2)) 1
    /\ (forall cw ch fw fh pw ph ps rot ox oy x1 x2 : num,
          let g1 := layout cw ch fw fh pw ph ps x1 rot ox oy in
          let g2 := layout cw ch fw fh pw ph ps x2 rot ox oy in
          baseProfileScale g1 = baseProfileScale g2
          /\ finalProfileWidth g1 = finalProfileWidth g2
          /\ finalProfileHeight g1 = finalProfileHeight g2
          /\ profileCenterX g1 = profileCenterX g2
          /\ profileCenterY g1 = profileCenterY g2
          /\ rotationRadians g1 = rotationRadians g2).
Proof.
  intros num Num profile frame options fs1 fs2 s. cbv zeta.
  destruct (render_cases profile frame (with_frameScale fs1 options) s)
    as [[Hbad Hthrow] | [_ Hok]].
  - rewrite Hthrow, (render_throws profile frame (with_frameScale fs2 options) s Hbad).
    repeat split.
  - destruct Hok as (W & Hh & pw & ph & EW & EH & Epw & Eph & HW & HH & Hpw & Hph).
    rewrite (render_draws profile frame (with_frameScale fs1 options) s
               EW EH Epw Eph HW HH Hpw Hph),
            (render_draws profile frame (with_frameScale fs2 options) s
               EW EH Epw Eph HW HH Hpw Hph).
    repeat split.
Qed.

(* ================================================================= *)
(** ** Further results: object URLs and the download helper *)

Lemma blob_url_inj (n m : nat) : blob_url n = blob_url m -> n = m.
Proof.
  unfold blob_url. intros E. cbn in E. injection E as E.
  apply DecimalNat.Unsigned.to_uint_inj.
  assert (Some (Nat.to_uint n) = Some (Nat.to_uint m)) as E'
    by (rewrite <- !NilEmpty.usu, E; reflexivity).
  now injection E'.
Qed.

(** A well-kept store hands out a URL that is not live yet. *)
Lemma next_url_fresh (store : URLStore) :
  store_ok store -> ~ In (blob_url (serial store)) (live store).
Proof.
  intros Hok Hin. destruct (Hok _ Hin) as (n & Hn & E).
  apply blob_url_inj in E. lia.
Qed.

Lemma remove_appended {A : Type} (dec : forall x y : A, {x = y} + {x <> y})
    (x : A) (l : list A) :
  ~ In x l -> remove dec x (remove dec x l ++ [x]) = l.
Proof.
  intros Hx. rewrite (notin_remove dec l x Hx), remove_app, (notin_remove dec l x Hx).
  cbn. destruct (dec x x) as [_ | Hne]; [apply app_nil_r | contradiction].
Qed.

(** X1. Whatever the browser state, [downloadImage] does not fail and
    clicks exactly once, on an anchor that is in the document at that
    moment and whose [href] is the object URL just created for the blob,
    live at that moment, with the file name as [download] attribute; when
    it returns, that URL is revoked and the anchor is out of the
    document. *)
Theorem downloadImage_clicks_once :
  forall (B : Type) (blob : B) (filename : string) (b : Download.Browser),
    exists b' : Download.Browser,
      Download.downloadImage blob filename b = inr b'
      /\ Download.clicks b' =
           Download.clicks b ++
           [{| Download.target :=
                 {| Download.node := Download.next_node (Download.document b);
                    Download.href := blob_url (serial (Download.urls b));
                    Download.download := filename |};
               Download.attached := true;
               Download.href_live := true |}]
      /\ ~ In (blob_url (serial (Download.urls b))) (live (Download.urls b'))
      /\ ~ In (Download.next_node (Download.document b))
              (Download.body (Download.document b')).
Proof.
  intros B blob filename b.
  unfold Download.downloadImage, Download.createObjectURL_blob, Download.createElement_a.
  cbn [Download.node Download.href Download.download].
  unfold Download.removeChild, Download.click, Download.appendChild.
  cbn [Download.urls Download.document Download.clicks Download.body
       Download.next_node Download.node Download.href live].
  set (n := Download.next_node (Download.document b)).
  set (u := blob_url (serial (Download.urls b))).
  destruct (in_dec Nat.eq_dec n
              (remove Nat.eq_dec n (Download.body (Download.document b)) ++ [n]))
    as [_ | Hout]; [| exfalso; apply Hout, in_or_app; right; left; reflexivity].
  destruct (in_dec string_dec u (u :: live (Download.urls b)))
    as [_ | Hout]; [| exfalso; apply Hout; left; reflexivity].
  eexists. split; [reflexivity|].
  cbn [Download.clicks Download.urls Download.document Download.body
       Download.revokeObjectURL_in revokeObjectURL live].
  split; [reflexivity|]. split; apply remove_In.
Qed.

(** X2. In a browser whose store and document are well kept (live URLs
    and child nodes all stem from earlier calls), [downloadImage] leaves
    the live URLs and the children of the document exactly as they were:
    the temporary URL and the temporary anchor are both gone, and nothing
    else was touched. *)
Theorem downloadImage_restores :
  forall (B : Type) (blob : B) (filename : string) (b : Download.Browser),
    store_ok (Download.urls b) ->
    Download.document_ok (Download.document b) ->
    exists b' : Download.Browser,
      Download.downloadImage blob filename b = inr b'
      /\ live (Download.urls b') = live (Download.urls b)
      /\ Download.body (Download.document b') = Download.body (Download.document b)
      /\ store_ok (Download.urls b')
      /\ Download.document_ok (Download.document b').
Proof.
  intros B blob filename b Hstore Hdoc.
  pose proof (next_url_fresh Hstore) as Hfresh.
  assert (Hnode : ~ In (Download.next_node (Download.document b))
                       (Download.body (Download.document b))).
  { intros Hin. unfold Download.document_ok in Hdoc.
    rewrite Forall_forall in Hdoc. specialize (Hdoc _ Hin). lia. }
  unfold Download.downloadImage, Download.createObjectURL_blob, Download.createElement_a.
  cbn [Download.node Download.href Download.download].
  unfold Download.removeChild, Download.click, Download.appendChild.
  cbn [Download.urls Download.document Download.clicks Download.body
       Download.next_node Download.node Download.href live].
  set (n := Download.next_node (Download.document b)) in *.
  set (u := blob_url (serial (Download.urls b))) in *.
  destruct (in_dec Nat.eq_dec n
              (remove Nat.eq_dec n (Download.body (Download.document b)) ++ [n]))
    as [_ | Hout]; [| exfalso; apply Hout, in_or_app; right; left; reflexivity].
  eexists. split; [reflexivity|].
  cbn [Download.clicks Download.urls Download.document Download.body
       Download.next_node Download.revokeObjectURL_in revokeObjectURL live serial].
  split; [| split; [| split]].
  - rewrite remove_cons. apply notin_remove. exact Hfresh.
  - apply remove_appended. exact Hnode.
  - intros v Hv. unfold revokeObjectURL in *. cbn [live serial] in *.
    apply in_remove in Hv. destruct Hv as [Hv _].
    destruct Hv as [E | Hv].
    + exists (serial (Download.urls b)). split; [lia | now subst v].
    + destruct (Hstore v Hv) as (k & Hk & E). exists k. split; [lia | exact E].
  - unfold Download.document_ok. cbn [Download.body Download.next_node].
    rewrite (remove_appended Nat.eq_dec n _ Hnode).
    unfold Download.document_ok in Hdoc. fold n in Hdoc.
    eapply Forall_impl; [| exact Hdoc]. intros a Ha. cbn in Ha. lia.
Qed.

Lemma downloadImage_restores_witness :
  let b := {| Download.urls := busy_store;
              Download.document := {| Download.body := [3; 5]%nat;
                                      Download.next_node := 6 |};
              Download.clicks := [] |} in
  exists b' : Download.Browser,
    Download.downloadImage tt "framed-photo.png" b = inr b'
    /\ live (Download.urls b') = live (Download.urls b)
    /\ Download.body (Download.document b') = Download.body (Download.document b)
    /\ store_ok (Download.urls b')
    /\ Download.document_ok (Download.document b').
Proof.
  cbv zeta. apply downloadImage_restores.
  - intros u [E | [E | []]]; subst u.
    + exists 0%nat. split; [cbn; lia | reflexivity].
    + exists 7%nat. split; [cbn; lia | reflexivity].
  - unfold Download.document_ok. cbn. repeat constructor; lia.
Defined.

(* ================================================================= *)
(** ** Further results: the two compositors, cover fit, export size *)

Lemma scale_only_throws {num : Type} {Num : Number num}
    (profile frame : HTMLImageElement) (options : ScaleOnly.CompositeOptions num)
    (s : Canvas2D num) :
  guard profile frame = true ->
  ScaleOnly.renderCompositeToCanvas profile frame options s
  = (s, inl InvalidDimensionsError).
Proof.
  unfold guard. intros E. unfold ScaleOnly.renderCompositeToCanvas.
  rewrite E. reflexivity.
Qed.

Lemma scale_only_draws {num : Type} {Num : Number num}
    (profile frame : HTMLImageElement) (options : ScaleOnly.CompositeOptions num)
    (s : Canvas2D num) (W Hh pw ph : N) :
  naturalWidth frame ||| width frame = Some W ->
  naturalHeight frame ||| height frame = Some Hh ->
  naturalWidth profile ||| width profile = Some pw ->
  naturalHeight profile ||| height profile = Some ph ->
  (0 < W)%N -> (0 < Hh)%N -> (0 < pw)%N -> (0 < ph)%N ->
  ScaleOnly.renderCompositeToCanvas profile frame options s =
    (let cw := canvas_dimension default_width W in
     let ch := canvas_dimension default_height Hh in
     let g :=
       layout (of_N cw) (of_N ch) (of_N W) (of_N Hh) (of_N pw) (of_N ph)
         (or_default (of_N 1) (ScaleOnly.profileScale options))
         (or_default (of_N 1) (ScaleOnly.frameScale options))
         (of_N 0) (of_N 0) (of_N 0) in
     {| canvas_width := cw; canvas_height := ch;
        ctm := identity; saved := [];
        display :=
          [ClearRect identity (of_N 0) (of_N 0) (of_N cw) (of_N ch);
           DrawImage identity profile
             (baseProfileOffsetX g) (baseProfileOffsetY g)
             (finalProfileWidth g) (finalProfileHeight g);
           DrawImage identity frame
             (frameOffsetX g) (frameOffsetY g)
             (scaledFrameWidth g) (scaledFrameHeight g)] |},
     inr tt).
Proof.
  intros EW EH Epw Eph HW HH Hpw Hph.
  unfold ScaleOnly.renderCompositeToCanvas. rewrite EW, EH, Epw, Eph.
  destruct W; [lia|]. destruct Hh; [lia|]. destruct pw; [lia|]. destruct ph; [lia|].
  reflexivity.
Qed.

(** X3. The compositor with rotation and offsets, called without them,
    does what the scale-only compositor does: for any arithmetic the two
    have the same outcome, leave the canvas with the same size, transform
    and saved states, and issue the same clearing command, the same frame
    command and as many commands; in exact arithmetic the profile
    rectangle, drawn at the same size, lands on the same corners of the
    canvas. *)
Theorem full_compositor_extends_scale_only :
  (forall (num : Type) (Num : Number num)
          (profile frame : HTMLImageElement) (ps fs : option num)
          (s : Canvas2D num),
      let full :=
        renderCompositeToCanvas profile frame
          {| profileScale := ps; frameScale := fs; profileRotation := None;
             profileOffsetX := None; profileOffsetY := None |} s in
      let simple :=
        ScaleOnly.renderCompositeToCanvas profile frame
          {| ScaleOnly.profileScale := ps; ScaleOnly.frameScale := fs |} s in
      snd full = snd simple
      /\ canvas_width (fst full) = canvas_width (fst simple)
      /\ canvas_height (fst full) = canvas_height (fst simple)
      /\ ctm (fst full) = ctm (fst simple)
      /\ saved (fst full) = saved (fst simple)
      /\ nth_error (display (fst full)) 0 = nth_error (display (fst simple)) 0
      /\ nth_error (display (fst full)) 2 = nth_error (display (fst simple)) 2
      /\ List.length (display (fst full)) = List.length (display (fst simple)))
  /\ (forall (profile frame : HTMLImageElement) (ps fs : option R)
             (s : Canvas2D R),
        guard profile frame = false ->
        let full :=
          renderCompositeToCanvas profile frame
            {| profileScale := ps; frameScale := fs; profileRotation := None;
               profileOffsetX := None; profileOffsetY := None |} s in
        let simple :=
          ScaleOnly.renderCompositeToCanvas profile frame
            {| ScaleOnly.profileScale := ps; ScaleOnly.frameScale := fs |} s in
        exists (m : Transform R) (dx dy dw dh dx' dy' : R),
          nth_error (display (fst full)) 1 = Some (DrawImage m profile dx dy dw dh)
          /\ nth_error (display (fst simple)) 1
             = Some (DrawImage identity profile dx' dy' dw dh)
          /\ to_canvas m (dx, dy) = (dx', dy')
          /\ to_canvas m (dx + dw, dy + dh)%R = (dx' + dw, dy' + dh)%R).
Proof.
  split.
  - intros num Num profile frame ps fs s. cbv zeta.
    destruct (guard profile frame) eqn:Hg.
    + rewrite (render_throws profile frame _ s Hg),
              (scale_only_throws profile frame _ s Hg).
      repeat split.
    + apply guard_false in Hg.
      destruct Hg as (W & Hh & pw & ph & EW & EH & Epw & Eph & HW & HH & Hpw & Hph).
      rewrite (render_draws profile frame _ s EW EH Epw Eph HW HH Hpw Hph),
              (scale_only_draws profile frame _ s EW EH Epw Eph HW HH Hpw Hph).
      repeat split.
  - intros profile frame ps fs s Hg. cbv zeta.
    apply guard_false in Hg.
    destruct Hg as (W & Hh & pw & ph & EW & EH & Epw & Eph & HW & HH & Hpw & Hph).
    rewrite (render_draws profile frame _ s EW EH Epw Eph HW HH Hpw Hph),
            (scale_only_draws profile frame _ s EW EH Epw Eph HW HH Hpw Hph).
    do 7 eexists. split; [reflexivity|]. split; [reflexivity|].
    cbv [to_canvas fold_right apply_op fst snd layout rotationRadians
         profileCenterX profileCenterY finalProfileWidth finalProfileHeight
         baseProfileOffsetX baseProfileOffsetY or_default
         profileScale frameScale profileRotation profileOffsetX profileOffsetY
         ScaleOnly.profileScale ScaleOnly.frameScale
         of_N add sub mul div neg Math_max Math_PI real_Number].
    change (IZR (Z.of_N 0)) with 0%R. change (IZR (Z.of_N 2)) with 2%R.
    replace (0 * PI / IZR (Z.of_N 180))%R with 0%R
      by (change (IZR (Z.of_N 180)) with 180%R; lra).
    rewrite cos_0, sin_0. split; f_equal; lra.
Qed.

Lemma full_compositor_extends_scale_only_witness :
  let profile := image "profile" 4000 3000 in
  let frame := image "frame" 800 600 in
  let full :=
    renderCompositeToCanvas profile frame
      {| profileScale := Some 2%R; frameScale := None; profileRotation := None;
         profileOffsetX := None; profileOffsetY := None |}
      {| canvas_width := 1; canvas_height := 1; ctm := identity; saved := [];
         display := [] |} in
  let simple :=
    ScaleOnly.renderCompositeToCanvas profile frame
      {| ScaleOnly.profileScale := Some 2%R; ScaleOnly.frameScale := None |}
      {| canvas_width := 1; canvas_height := 1; ctm := identity; saved := [];
         display := [] |} in
  exists (m : Transform R) (dx dy dw dh dx' dy' : R),
    nth_error (display (fst full)) 1 = Some (DrawImage m profile dx dy dw dh)
    /\ nth_error (display (fst simple)) 1
       = Some (DrawImage identity profile dx' dy' dw dh)
    /\ to_canvas m (dx, dy) = (dx', dy')
    /\ to_canvas m (dx + dw, dy + dh)%R = (dx' + dw, dy' + dh)%R.
Proof.
  cbv zeta.
  apply (proj2 full_compositor_extends_scale_only
           (image "profile" 4000 3000) (image "frame" 800 600)).
  reflexivity.
Defined.

(** X4. Cover fit, in exact arithmetic: for images with positive
    dimensions and a profile scale of at least 1, the profile rectangle
    is at least as wide and as high as the canvas is after the call and
    keeps the aspect ratio of the photo, and its centred position is not
    inside the canvas ([baseProfileOffsetX] and [baseProfileOffsetY] are
    not positive); at scale exactly 1 its width or its height is that of
    the canvas. *)
Theorem profile_covers_canvas :
  forall (profile frame : HTMLImageElement) (options : CompositeOptions R)
         (s : Canvas2D R) (W Hh pw ph : N),
    naturalWidth frame ||| width frame = Some W ->
    naturalHeight frame ||| height frame = Some Hh ->
    naturalWidth profile ||| width profile = Some pw ->
    naturalHeight profile ||| height profile = Some ph ->
    (0 < W)%N -> (0 < Hh)%N -> (0 < pw)%N -> (0 < ph)%N ->
    (1 <= or_default 1 (profileScale options))%R ->
    exists (s' : Canvas2D R) (m : Transform R) (dx dy dw dh : R),
      renderCompositeToCanvas profile frame options s = (s', inr tt)
      /\ nth_error (display s') 1 = Some (DrawImage m profile dx dy dw dh)
      /\ (IZR (Z.of_N (canvas_width s')) <= dw)%R
      /\ (IZR (Z.of_N (canvas_height s')) <= dh)%R
      /\ (dw * IZR (Z.of_N ph) = dh * IZR (Z.of_N pw))%R
      /\ ((IZR (Z.of_N (canvas_width s')) - dw) / 2 <= 0)%R
      /\ ((IZR (Z.of_N (canvas_height s')) - dh) / 2 <= 0)%R
      /\ (or_default 1%R (profileScale options) = 1%R ->
          dw = IZR (Z.of_N (canvas_width s'))
          \/ dh = IZR (Z.of_N (canvas_height s'))).
Proof.
  intros profile frame options s W Hh pw ph EW EH Epw Eph HW HH Hpw Hph Hscale.
  rewrite (render_draws profile frame options s EW EH Epw Eph HW HH Hpw Hph).
  do 6 eexists. split; [reflexivity|]. split; [reflexivity|].
  cbn [canvas_width canvas_height].
  cbv [layout finalProfileWidth finalProfileHeight
       of_N add sub mul div neg Math_max Math_PI real_Number].
  change (IZR (Z.of_N 1)) with 1%R.
  set (k := or_default 1%R (profileScale options)) in *.
  assert (Hw : (0 <= IZR (Z.of_N (canvas_dimension default_width W)))%R)
    by (apply IZR_le; lia).
  assert (Hh' : (0 <= IZR (Z.of_N (canvas_dimension default_height Hh)))%R)
    by (apply IZR_le; lia).
  assert (Hp : (0 < IZR (Z.of_N pw))%R) by (apply IZR_lt; lia).
  assert (Hq : (0 < IZR (Z.of_N ph))%R) by (apply IZR_lt; lia).
  set (w := IZR (Z.of_N (canvas_dimension default_width W))) in *.
  set (h := IZR (Z.of_N (canvas_dimension default_height Hh))) in *.
  set (p := IZR (Z.of_N pw)) in *. set (q := IZR (Z.of_N ph)) in *.
  set (base := Rmax (w / p) (h / q)).
  assert (Hbw : (w <= p * base)%R).
  { replace w with (p * (w / p))%R at 1 by (field; lra).
    apply Rmult_le_compat_l; [lra | apply Rmax_l]. }
  assert (Hbh : (h <= q * base)%R).
  { replace h with (q * (h / q))%R at 1 by (field; lra).
    apply Rmult_le_compat_l; [lra | apply Rmax_r]. }
  assert (Hkw : (p * base <= p * base * k)%R) by nra.
  assert (Hkh : (q * base <= q * base * k)%R) by nra.
  split; [lra|]. split; [lra|]. split; [ring|]. split; [lra|]. split; [lra|].
  intros Hone. rewrite Hone. unfold base.
  unfold Rmax. destruct (Rle_dec (w / p) (h / q)) as [_ | _].
  - right. field. lra.
  - left. field. lra.
Qed.

Lemma profile_covers_canvas_witness :
  exists (s' : Canvas2D R) (m : Transform R) (dx dy dw dh : R),
    renderCompositeToCanvas (image "profile" 400 600) (image "frame" 800 800)
      (no_options R)
      {| canvas_width := 1; canvas_height := 1; ctm := identity; saved := [];
         display := [] |} = (s', inr tt)
    /\ nth_error (display s') 1
       = Some (DrawImage m (image "profile" 400 600) dx dy dw dh)
    /\ (800 <= dw)%R /\ (800 <= dh)%R
    /\ (dw * 600 = dh * 400)%R
    /\ ((800 - dw) / 2 <= 0)%R /\ ((800 - dh) / 2 <= 0)%R
    /\ (1%R = 1%R -> dw = 800%R \/ dh = 800%R).
Proof.
  destruct (@profile_covers_canvas (image "profile" 400 600) (image "frame" 800 800)
              (no_options R)
              {| canvas_width := 1; canvas_height := 1; ctm := identity; saved := [];
                 display := [] |}
              800%N 800%N 400%N 600%N
              eq_refl eq_refl eq_refl eq_refl eq_refl eq_refl eq_refl eq_refl)
    as (s' & m & dx & dy & dw & dh & Hrun & Hdraw & Hwide & Hhigh & Hratio
        & Hleft & Htop & Hone).
  { cbn. lra. }
  assert (Hsize : canvas_width s' = 800%N /\ canvas_height s' = 800%N).
  { apply (f_equal fst) in Hrun. cbn [fst] in Hrun. subst s'.
    split; lazy; reflexivity. }
  destruct Hsize as [Ewidth Eheight]. rewrite Ewidth, Eheight in *.
  exists s', m, dx, dy, dw, dh.
  split; [exact Hrun|]. split; [exact Hdraw|].
  split; [exact Hwide|]. split; [exact Hhigh|]. split; [exact Hratio|].
  split; [exact Hleft|]. split; [exact Htop | exact Hone].
Defined.

(** Cover fit is a statement of exact arithmetic: in binary64 the width
    can fall one rounding short of the canvas (a 49x49 photo on a 1x1
    frame). *)
Example binary64_cover_fit_rounds :
  finalProfileWidth
    (layout (of_N 1) (of_N 1) (of_N 1) (of_N 1) (of_N 49) (of_N 49)
       1%float 1%float 0%float 0%float 0%float)
  = 0x1.fffffffffffffp-1%float.
Proof. vm_compute. reflexivity. Qed.

(** X5. When both sources decode to positive dimensions, in either order,
    those of the frame at most 2147483647 (the largest a canvas holds),
    and the encoder delivers, [mergeImages] resolves with a PNG blob whose
    bitmap has exactly the width and height of the decoded frame,
    whatever the size of the photo and the options, and holds exactly the
    three commands of one render. *)
Theorem exported_blob_has_frame_size :
  forall (num : Type) (Num : Number num)
         (profileImage frameImage : File) (opts : CompositeOptions num)
         (store : URLStore) (r0 : Run num)
         (w h w' h' : N) (events : list Event),
    mergeImages profileImage frameImage opts true store = Loading r0 ->
    events = [ProfileLoad w h; FrameLoad w' h']
    \/ events = [FrameLoad w' h'; ProfileLoad w h] ->
    (0 < w)%N -> (0 < h)%N -> (0 < w')%N -> (0 < h')%N ->
    (w' <= 2147483647)%N -> (h' <= 2147483647)%N ->
    exists blob : Blob num,
      promise (run (events ++ [BlobDone true]) r0) = Resolved blob
      /\ blob_type blob = "image/png"%string
      /\ canvas_width (blob_bitmap blob) = w'
      /\ canvas_height (blob_bitmap blob) = h'
      /\ List.length (display (blob_bitmap blob)) = 3%nat.
Proof.
  intros num Num profileImage frameImage opts store r0 w h w' h' events
         Hstart Hev Hw Hh Hw' Hh' Hwfit Hhfit.
  cbn in Hstart. injection Hstart as Hr0. subst r0.
  match goal with |- context [run _ ?x] => set (r0 := x) end.
  pose proof (join_either_order r0 eq_refl eq_refl Hev) as Hjoin.
  set (loaded := set_frame (decoded w' h' (frame r0)) true
                   (set_profile (decoded w h (profile r0)) true r0)) in Hjoin.
  assert (Hdims : exists W Hh0 pw ph,
             naturalWidth (frame loaded) ||| width (frame loaded) = Some W /\
             naturalHeight (frame loaded) ||| height (frame loaded) = Some Hh0 /\
             naturalWidth (profile loaded) ||| width (profile loaded) = Some pw /\
             naturalHeight (profile loaded) ||| height (profile loaded) = Some ph /\
             (0 < W)%N /\ (0 < Hh0)%N /\ (0 < pw)%N /\ (0 < ph)%N).
  { exists w', h', w, h. cbn.
    destruct w; [lia|]. destruct h; [lia|]. destruct w'; [lia|]. destruct h'; [lia|].
    repeat split. }
  assert (Hg : guard (profile loaded) (frame loaded) = false)
    by (apply guard_false; exact Hdims).
  pose proof (@tryMerge_requests_blob num Num loaded eq_refl eq_refl eq_refl Hg) as Hreq.
  cbv zeta in Hreq.
  unfold run. rewrite fold_left_app. fold (run events r0).
  rewrite Hjoin, Hreq. cbn [fold_left step toBlob_pending set_toBlob_pending].
  eexists. split; [reflexivity|]. split; [reflexivity|].
  destruct Hdims as (W & Hh0 & pw & ph & EW & EH & Epw & Eph & HW & HH & Hpw & Hph).
  cbn [blob_bitmap].
  rewrite (render_draws (profile loaded) (frame loaded) (options loaded) (canvas loaded)
             EW EH Epw Eph HW HH Hpw Hph).
  cbn [fst canvas_width canvas_height display List.length].
  assert (EW' : W = w') by (cbn in EW; destruct w'; [lia | now injection EW]).
  assert (EH' : Hh0 = h') by (cbn in EH; destruct h'; [lia | now injection EH]).
  subst W Hh0.
  rewrite (canvas_dimension_fits default_width Hwfit),
          (canvas_dimension_fits default_height Hhfit).
  repeat split.
Qed.

Lemma exported_blob_has_frame_size_witness :
  exists r0 : Run float,
    mergeImages {| file_name := "me.jpg" |} {| file_name := "frame.png" |}
      tilted_options true busy_store = Loading r0
    /\ exists blob : Blob float,
         promise (run ([FrameLoad 800 600; ProfileLoad 4000 3000] ++ [BlobDone true]) r0)
         = Resolved blob
         /\ blob_type blob = "image/png"%string
         /\ canvas_width (blob_bitmap blob) = 800%N
         /\ canvas_height (blob_bitmap blob) = 600%N
         /\ List.length (display (blob_bitmap blob)) = 3%nat.
Proof.
  eexists. split; [reflexivity|].
  apply (@exported_blob_has_frame_size float float_Number
           {| file_name := "me.jpg" |} {| file_name := "frame.png" |}
           tilted_options busy_store _ 4000%N 3000%N 800%N 600%N _ eq_refl
           (or_intror eq_refl));
    first [reflexivity | lia].
Defined.

(* ================================================================= *)
(** ** Further results: the application *)

Unset Implicit Arguments.

Section StoreFacts.
Context {num : Type} `{Number num}.

(** In a well-kept store the next two URLs are new and differ. *)
Lemma next_two_urls_fresh (store : URLStore) :
  store_ok store ->
  ~ In (blob_url (serial store)) (live store)
  /\ ~ In (blob_url (S (serial store))) (live store)
  /\ blob_url (serial store) <> blob_url (S (serial store)).
Proof.
  intros Hok. split; [apply next_url_fresh; exact Hok|]. split.
  - intros Hin. destruct (Hok _ Hin) as (n & Hn & E).
    apply blob_url_inj in E. lia.
  - intros E. apply blob_url_inj in E. lia.
Qed.

Lemma remove_cons_other {A : Type} (dec : forall x y : A, {x = y} + {x <> y})
    (a b : A) (l : list A) :
  a <> b -> remove dec a (b :: l) = b :: remove dec a l.
Proof.
  intros Hab. cbn. destruct (dec a b) as [E | _]; [contradiction | reflexivity].
Qed.

Lemma remove_both_fresh {A : Type} (dec : forall x y : A, {x = y} + {x <> y})
    (a b : A) (L : list A) :
  ~ In a L -> ~ In b L -> a <> b ->
  remove dec b (remove dec a (b :: a :: L)) = L
  /\ remove dec b (remove dec a L) = L.
Proof.
  intros Ha Hb Hab. split.
  - rewrite (remove_cons_other dec a b) by exact Hab.
    rewrite (remove_cons dec a L), (notin_remove dec L a Ha).
    rewrite (remove_cons dec b L). apply notin_remove. exact Hb.
  - rewrite (notin_remove dec L a Ha). apply notin_remove. exact Hb.
Qed.

(** The live URLs during a run of [mergeImages]: the two temporary URLs
    on top of what was live before, or, from the first cleanup on and in
    particular once the promise is settled, exactly what was live
    before. *)
Lemma run_live_exact (L : list URL) (events : list Event) :
  forall r : Run num,
    ~ In (profileUrl r) L -> ~ In (frameUrl r) L -> profileUrl r <> frameUrl r ->
    (live (urls r) = frameUrl r :: profileUrl r :: L \/ live (urls r) = L) ->
    (promise r <> Pending -> live (urls r) = L) ->
    (live (urls (run events r)) = frameUrl r :: profileUrl r :: L
     \/ live (urls (run events r)) = L)
    /\ (promise (run events r) <> Pending -> live (urls (run events r)) = L)
    /\ serial (urls (run events r)) = serial (urls r).
Proof.
  induction events as [| e events IH]; intros r Hp Hf Hpf Hlive Hsettled.
  - cbn. repeat split; assumption.
  - cbn [run fold_left].
    destruct (step_effect r e) as (Hpu & Hfu & Heff).
    assert (Hstep : (live (urls (step r e)) = frameUrl r :: profileUrl r :: L
                     \/ live (urls (step r e)) = L)
                    /\ (promise (step r e) <> Pending -> live (urls (step r e)) = L)
                    /\ serial (urls (step r e)) = serial (urls r)).
    { destruct Heff as [[Hu Hpr] | (Hu & _ & _)].
      - rewrite Hu, Hpr. repeat split; assumption.
      - assert (Hclean : live (urls (step r e)) = L).
        { rewrite Hu, revoke_both_urls.
          destruct (remove_both_fresh string_dec _ _ L Hp Hf Hpf) as [E1 E2].
          destruct Hlive as [-> | ->]; assumption. }
        split; [right; exact Hclean|].
        split; [intros _; exact Hclean | rewrite Hu; reflexivity]. }
    destruct Hstep as (Hlive' & Hsettled' & Hserial).
    rewrite <- Hpu in Hp, Hpf, Hlive'. rewrite <- Hfu in Hf, Hpf, Hlive'.
    destruct (IH (step r e) Hp Hf Hpf Hlive' Hsettled') as (H1 & H2 & H3).
    unfold run in *. rewrite Hpu, Hfu in H1.
    split; [exact H1|]. split; [exact H2|]. rewrite H3. exact Hserial.
Qed.

End StoreFacts.

Section AppFacts.
Context {num : Type} `{Number num}.

Lemma store_ok_grows (store : URLStore) (l : list URL) (k : nat) :
  store_ok store -> (serial store <= k)%nat ->
  (forall u, In u l -> In u (live store) \/ exists n, (n < k)%nat /\ u = blob_url n) ->
  store_ok {| live := l; serial := k |}.
Proof.
  intros Hok Hk Hl u Hu. cbn [live serial] in *.
  destruct (Hl u Hu) as [Hin | Hnew]; [| exact Hnew].
  destruct (Hok u Hin) as (n & Hn & E). exists n. split; [lia | exact E].
Qed.

(** What [mergeImages] leaves of the store, as [handleGenerate] sees it:
    the outcome, and the store with its serial advanced; when the promise
    is settled, the live URLs are those of before. *)
Lemma mergeImages_store (profileFile frameFile : File) (opts : CompositeOptions num)
    (has_context : bool) (events : list Event) (store : URLStore) :
  store_ok store ->
  let result :=
    match mergeImages profileFile frameFile opts has_context store with
    | NoContext store' p => (store', p)
    | Loading r0 => (urls (run events r0), promise (run events r0))
    end in
  (snd result <> Pending ->
   live (fst result) = live store
   /\ (serial store <= serial (fst result))%nat
   /\ store_ok (fst result))
  /\ (has_context = false -> snd result = Rejected ContextError)
  /\ (forall blob, snd result = Resolved blob -> has_context = true).
Proof.
  intros Hok. destruct has_context; cbn [mergeImages negb].
  - unfold createObjectURL. cbn zeta.
    match goal with |- context [run events ?x] => set (r0 := x) end.
    destruct (next_two_urls_fresh store Hok) as (Hp & Hf & Hpf).
    destruct (run_live_exact (live store) events r0 Hp Hf Hpf
                (or_introl eq_refl)
                (fun Hs => False_ind _ (Hs eq_refl))) as (_ & Hsettled & Hserial).
    cbn [fst snd]. split; [| split; [discriminate | reflexivity]].
    intros Hs. pose proof (Hsettled Hs) as Hlive.
    assert (Hser : serial (urls (run events r0)) = S (S (serial store)))
      by (rewrite Hserial; reflexivity).
    split; [exact Hlive|]. split; [lia|].
    destruct (urls (run events r0)) as [l k]. cbn [live serial] in Hlive, Hser.
    subst l k. apply store_ok_grows with (store := store); [exact Hok | lia |].
    intros u Hu. left. exact Hu.
  - cbn [fst snd]. split; [| split; [reflexivity | discriminate]].
    intros _. split; [reflexivity|]. split; [lia | exact Hok].
Qed.

Lemma createBlobURL_ok {B : Type} (blob : B) (store : URLStore) :
  store_ok store ->
  let (u, store') := createBlobURL blob store in
  live store' = u :: live store /\ ~ In u (live store) /\ store_ok store'.
Proof.
  intros Hok. cbn. split; [reflexivity|]. split; [apply next_url_fresh; exact Hok|].
  apply store_ok_grows with (store := store); [exact Hok | lia |].
  intros u [E | Hu]; [right | left; exact Hu].
  exists (serial store). split; [lia | now subst u].
Qed.

Lemma blob_url_not_blank (n : nat) : blob_url n <> EmptyString.
Proof. unfold blob_url. cbn. discriminate. Qed.

Lemma js_truthy_true (u : string) : js_truthy u = true <-> u <> EmptyString.
Proof.
  unfold js_truthy. rewrite negb_true_iff. split.
  - intros E Hu. apply String.eqb_neq in E. contradiction.
  - intros Hu. apply String.eqb_neq. exact Hu.
Qed.

Lemma js_truthy_false (u : string) : js_truthy u = false <-> u = EmptyString.
Proof.
  unfold js_truthy. rewrite negb_false_iff. apply String.eqb_eq.
Qed.

Lemma revoke_store_ok (u : URL) (store : URLStore) :
  store_ok store -> store_ok (revokeObjectURL u store).
Proof.
  intros Hok v Hv. unfold revokeObjectURL in *. cbn [live serial] in *.
  apply in_remove in Hv. apply Hok. exact (proj1 Hv).
Qed.

Lemma revoke_keeps (u v : URL) (store : URLStore) :
  In u (live store) -> u <> v -> In u (live (revokeObjectURL v store)).
Proof.
  intros Hin Hne. unfold revokeObjectURL. cbn [live].
  apply in_in_remove; assumption.
Qed.

Lemma revoke_if_truthy_ok (u : string) (store : URLStore) :
  store_ok store -> store_ok (revoke_if_truthy u store).
Proof.
  intros Hok. unfold revoke_if_truthy.
  destruct (js_truthy u); [apply revoke_store_ok|]; exact Hok.
Qed.

Lemma revoke_if_truthy_keeps (u v : string) (store : URLStore) :
  In u (live store) -> u <> v -> In u (live (revoke_if_truthy v store)).
Proof.
  intros Hin Hne. unfold revoke_if_truthy.
  destruct (js_truthy v); [apply revoke_keeps; assumption | exact Hin].
Qed.

Lemma createObjectURL_ok (file : File) (store : URLStore) :
  store_ok store ->
  fst (createObjectURL file store) = blob_url (serial store)
  /\ live (snd (createObjectURL file store)) = blob_url (serial store) :: live store
  /\ store_ok (snd (createObjectURL file store)).
Proof.
  intros Hok. split; [reflexivity|]. split; [reflexivity|].
  exact (proj2 (proj2 (createBlobURL_ok file store Hok))).
Qed.

(** The store that [mergeImages] leaves, settled or not: well kept, with
    nothing revoked that was live before. *)
Lemma mergeImages_store_incl (profileFile frameFile : File) (opts : CompositeOptions num)
    (has_context : bool) (events : list Event) (store : URLStore) :
  store_ok store ->
  let result :=
    match mergeImages profileFile frameFile opts has_context store with
    | NoContext store' p => (store', p)
    | Loading r0 => (urls (run events r0), promise (run events r0))
    end in
  store_ok (fst result) /\ incl (live store) (live (fst result)).
Proof.
  intros Hok. destruct has_context; cbn [mergeImages negb].
  - unfold createObjectURL. cbn zeta.
    match goal with |- context [run events ?x] => set (r0 := x) end.
    destruct (next_two_urls_fresh store Hok) as (Hp & Hf & Hpf).
    destruct (run_live_exact (live store) events r0 Hp Hf Hpf
                (or_introl eq_refl)
                (fun Hs => False_ind _ (Hs eq_refl))) as (Hlive & _ & Hserial).
    cbn [fst snd].
    assert (Hser : serial (urls (run events r0)) = S (S (serial store)))
      by (rewrite Hserial; reflexivity).
    assert (Hpu : profileUrl r0 = blob_url (serial store)) by reflexivity.
    assert (Hfu : frameUrl r0 = blob_url (S (serial store))) by reflexivity.
    rewrite Hpu, Hfu in Hlive. clear Hpu Hfu Hserial.
    destruct (urls (run events r0)) as [l k]. cbn [live serial] in Hlive, Hser.
    subst k. split.
    + apply store_ok_grows with (store := store); [exact Hok | lia |].
      intros u Hu. destruct Hlive as [-> | ->]; [| left; exact Hu].
      destruct Hu as [E | [E | Hu]]; [right | right | left; exact Hu].
      * exists (S (serial store)). split; [lia | now subst u].
      * exists (serial store). split; [lia | now subst u].
    + cbn [live]. intros u Hu.
      destruct Hlive as [-> | ->]; [right; right; exact Hu | exact Hu].
  - cbn [fst snd]. split; [exact Hok | apply incl_refl].
Qed.

(** What [handleGenerate] does to the URLs: it revokes nothing that was
    live before, leaves the files and the previews alone, and either
    leaves [mergedImage] alone or sets it to a URL that is live now and
    was not before. *)
Lemma handleGenerate_urls (has_context : bool) (events : list Event) (w : App.World num) :
  store_ok (App.urls w) ->
  let w' := App.handleGenerate has_context events w in
  store_ok (App.urls w')
  /\ incl (live (App.urls w)) (live (App.urls w'))
  /\ App.profileImage (App.state w') = App.profileImage (App.state w)
  /\ App.frameImage (App.state w') = App.frameImage (App.state w)
  /\ App.profilePreview (App.state w') = App.profilePreview (App.state w)
  /\ App.framePreview (App.state w') = App.framePreview (App.state w)
  /\ (App.mergedImage (App.state w') = App.mergedImage (App.state w)
      \/ (In (App.mergedImage (App.state w')) (live (App.urls w'))
          /\ ~ In (App.mergedImage (App.state w')) (live (App.urls w)))).
Proof.
  intros Hok. cbv zeta. unfold App.handleGenerate.
  destruct (App.profileImage (App.state w)) as [p |] eqn:Ep;
    [| rewrite Ep; repeat split; try apply incl_refl; try assumption; left; reflexivity].
  destruct (App.frameImage (App.state w)) as [f |] eqn:Ef;
    [| rewrite Ep, Ef; repeat split; try apply incl_refl; try assumption; left; reflexivity].
  pose proof (mergeImages_store_incl p f (App.options_of (App.state w))
                has_context events (App.urls w) Hok) as Hstore.
  cbv zeta in Hstore.
  destruct (match mergeImages p f (App.options_of (App.state w)) has_context (App.urls w)
            with
            | NoContext store' p0 => (store', p0)
            | Loading r0 => (urls (run events r0), promise (run events r0))
            end) as [store' outcome].
  cbn [fst snd] in Hstore. destruct Hstore as [Hok' Hincl].
  destruct outcome as [| blob | error].
  - cbn [App.state App.urls App.with_processing App.profileImage App.frameImage
         App.profilePreview App.framePreview App.mergedImage].
    repeat split; try assumption. left; reflexivity.
  - pose proof (createBlobURL_ok blob store' Hok') as Hnew.
    destruct (createBlobURL blob store') as [u store''].
    destruct Hnew as (Hl & Hfresh & Hok'').
    cbn [App.state App.urls App.with_processing App.with_merged App.profileImage
         App.frameImage App.profilePreview App.framePreview App.mergedImage].
    split; [exact Hok''|]. split.
    { intros v Hv. rewrite Hl. right. apply Hincl. exact Hv. }
    repeat (split; [assumption || reflexivity|]).
    right. split; [rewrite Hl; left; reflexivity|].
    intros Hin. apply Hfresh, Hincl. exact Hin.
  - cbn [App.state App.urls App.with_processing App.profileImage App.frameImage
         App.profilePreview App.framePreview App.mergedImage].
    repeat split; try assumption. left; reflexivity.
Qed.

(** A live URL that is in neither preview field survives every handler,
    and is in neither preview field afterwards. *)
Lemma act_keeps_unheld (u : URL) (w : App.World num) (a : App.Action) :
  store_ok (App.urls w) -> In u (live (App.urls w)) ->
  App.profilePreview (App.state w) <> u -> App.framePreview (App.state w) <> u ->
  store_ok (App.urls (App.act w a))
  /\ In u (live (App.urls (App.act w a)))
  /\ App.profilePreview (App.state (App.act w a)) <> u
  /\ App.framePreview (App.state (App.act w a)) <> u.
Proof.
  intros Hok Hin Hp Hf. destruct a as [file | file | | | has_context events].
  - cbn [App.act]. unfold App.handleProfileSelect.
    destruct (createObjectURL_ok file (App.urls w) Hok) as (Hu & Hl & Hok').
    destruct (createObjectURL file (App.urls w)) as [url store'].
    cbn [fst snd] in Hu, Hl, Hok'.
    cbn [App.state App.urls App.profilePreview App.framePreview].
    split; [exact Hok'|]. split; [rewrite Hl; right; exact Hin|].
    split; [| exact Hf].
    intros E. rewrite Hu in E. subst u.
    exact (@next_url_fresh _ Hok Hin).
  - cbn [App.act]. unfold App.handleFrameSelect.
    destruct (createObjectURL_ok file (App.urls w) Hok) as (Hu & Hl & Hok').
    destruct (createObjectURL file (App.urls w)) as [url store'].
    cbn [fst snd] in Hu, Hl, Hok'.
    cbn [App.state App.urls App.profilePreview App.framePreview].
    split; [exact Hok'|]. split; [rewrite Hl; right; exact Hin|].
    split; [exact Hp|].
    intros E. rewrite Hu in E. subst u.
    exact (@next_url_fresh _ Hok Hin).
  - cbn [App.act]. unfold App.handleClearProfile.
    cbn [App.state App.urls App.profilePreview App.framePreview].
    split; [apply revoke_if_truthy_ok; exact Hok|].
    split; [apply revoke_if_truthy_keeps; [exact Hin | congruence]|].
    split; [| exact Hf].
    intros E. subst u. destruct (Hok _ Hin) as (n & _ & E).
    exact (blob_url_not_blank n (eq_sym E)).
  - cbn [App.act]. unfold App.handleClearFrame.
    cbn [App.state App.urls App.profilePreview App.framePreview].
    split; [apply revoke_if_truthy_ok; exact Hok|].
    split; [apply revoke_if_truthy_keeps; [exact Hin | congruence]|].
    split; [exact Hp|].
    intros E. subst u. destruct (Hok _ Hin) as (n & _ & E).
    exact (blob_url_not_blank n (eq_sym E)).
  - cbn [App.act].
    destruct (handleGenerate_urls has_context events w Hok)
      as (Hok' & Hincl & _ & _ & Epp & Efp & _).
    split; [exact Hok'|]. split; [apply Hincl; exact Hin|].
    rewrite Epp, Efp. split; assumption.
Qed.

Lemma play_keeps_unheld (u : URL) (actions : list App.Action) :
  forall w : App.World num,
    store_ok (App.urls w) -> In u (live (App.urls w)) ->
    App.profilePreview (App.state w) <> u -> App.framePreview (App.state w) <> u ->
    In u (live (App.urls (App.play actions w))).
Proof.
  induction actions as [| a actions IH]; intros w Hok Hin Hp Hf.
  - exact Hin.
  - cbn [App.play fold_left].
    destruct (act_keeps_unheld u w a Hok Hin Hp Hf) as (Hok' & Hin' & Hp' & Hf').
    exact (IH (App.act w a) Hok' Hin' Hp' Hf').
Qed.

Lemma live_not_blank (u : URL) (store : URLStore) :
  store_ok store -> In u (live store) -> u <> EmptyString.
Proof.
  intros Hok Hin E. destruct (Hok _ Hin) as (n & _ & En).
  subst u. exact (blob_url_not_blank n (eq_sym En)).
Qed.

Lemma fresh_differs (u v : URL) (store : URLStore) :
  ~ In u (live store) -> u <> EmptyString -> App.blank_or_live v store -> v <> u.
Proof.
  intros Hfresh Hu [Hv | Hv] E; rewrite E in Hv; [exact (Hu Hv) | exact (Hfresh Hv)].
Qed.

Lemma blank_or_live_incl (u : URL) (store store' : URLStore) :
  incl (live store) (live store') ->
  App.blank_or_live u store -> App.blank_or_live u store'.
Proof.
  intros Hincl [E | Hin]; [left; exact E | right; apply Hincl; exact Hin].
Qed.

Lemma act_consistent (w : App.World num) (a : App.Action) :
  App.consistent w -> App.consistent (App.act w a).
Proof.
  intros (Hok & Hpp & Hfp & Hm & Hpi & Hfi & Hdp & Hdf).
  destruct a as [file | file | | | has_context events].
  - cbn [App.act]. unfold App.handleProfileSelect, App.consistent.
    destruct (createObjectURL_ok file (App.urls w) Hok) as (Hu & Hl & Hok').
    pose proof (@next_url_fresh _ Hok) as Hfresh.
    destruct (createObjectURL file (App.urls w)) as [url store'].
    cbn [fst snd] in Hu, Hl, Hok'. subst url.
    cbn [App.state App.urls App.profilePreview App.framePreview App.mergedImage
         App.profileImage App.frameImage].
    assert (Hincl : incl (live (App.urls w)) (live store'))
      by (rewrite Hl; apply incl_tl, incl_refl).
    split; [exact Hok'|].
    split; [right; rewrite Hl; left; reflexivity|].
    split; [exact (blank_or_live_incl _ _ _ Hincl Hfp)|].
    split; [exact (blank_or_live_incl _ _ _ Hincl Hm)|].
    split; [split; [intros E; destruct (blob_url_not_blank _ E) | discriminate]|].
    split; [exact Hfi|].
    split; [| exact Hdf].
    intros _. split; apply not_eq_sym;
      eapply fresh_differs; eauto using blob_url_not_blank.
  - cbn [App.act]. unfold App.handleFrameSelect, App.consistent.
    destruct (createObjectURL_ok file (App.urls w) Hok) as (Hu & Hl & Hok').
    pose proof (@next_url_fresh _ Hok) as Hfresh.
    destruct (createObjectURL file (App.urls w)) as [url store'].
    cbn [fst snd] in Hu, Hl, Hok'. subst url.
    cbn [App.state App.urls App.profilePreview App.framePreview App.mergedImage
         App.profileImage App.frameImage].
    assert (Hincl : incl (live (App.urls w)) (live store'))
      by (rewrite Hl; apply incl_tl, incl_refl).
    split; [exact Hok'|].
    split; [exact (blank_or_live_incl _ _ _ Hincl Hpp)|].
    split; [right; rewrite Hl; left; reflexivity|].
    split; [exact (blank_or_live_incl _ _ _ Hincl Hm)|].
    split; [exact Hpi|].
    split; [split; [intros E; destruct (blob_url_not_blank _ E) | discriminate]|].
    split.
    + intros Hne. split; [| exact (proj2 (Hdp Hne))].
      eapply fresh_differs; eauto using blob_url_not_blank.
    + intros _. apply not_eq_sym.
      eapply fresh_differs; eauto using blob_url_not_blank.
  - cbn [App.act]. unfold App.handleClearProfile, App.consistent.
    cbn [App.state App.urls App.profilePreview App.framePreview App.mergedImage
         App.profileImage App.frameImage].
    split; [apply revoke_if_truthy_ok; exact Hok|].
    split; [left; reflexivity|].
    split.
    { destruct Hfp as [E | Hin]; [left; exact E | right].
      apply revoke_if_truthy_keeps; [exact Hin|].
      intros E.
      destruct (string_dec (App.profilePreview (App.state w)) EmptyString) as [Hb | Hnb].
      - rewrite Hb in E. exact (live_not_blank _ _ Hok Hin E).
      - exact (proj1 (Hdp Hnb) (eq_sym E)). }
    split; [left; reflexivity|].
    split; [tauto|]. split; [exact Hfi|].
    split; [intros Hne; destruct (Hne eq_refl)|].
    intros Hne E. exact (Hne E).
  - cbn [App.act]. unfold App.handleClearFrame, App.consistent.
    cbn [App.state App.urls App.profilePreview App.framePreview App.mergedImage
         App.profileImage App.frameImage].
    split; [apply revoke_if_truthy_ok; exact Hok|].
    split.
    { destruct Hpp as [E | Hin]; [left; exact E | right].
      apply revoke_if_truthy_keeps; [exact Hin|].
      exact (proj1 (Hdp (live_not_blank _ _ Hok Hin))). }
    split; [left; reflexivity|].
    split; [left; reflexivity|].
    split; [exact Hpi|]. split; [tauto|].
    split; [intros Hne; split; exact Hne|].
    intros Hne; destruct (Hne eq_refl).
  - cbn [App.act].
    destruct (handleGenerate_urls has_context events w Hok)
      as (Hok' & Hincl & Epi & Efi & Epp & Efp & Hmerged).
    unfold App.consistent. rewrite Epi, Efi, Epp, Efp.
    split; [exact Hok'|].
    split; [exact (blank_or_live_incl _ _ _ Hincl Hpp)|].
    split; [exact (blank_or_live_incl _ _ _ Hincl Hfp)|].
    destruct Hmerged as [Em | [Hnew Hfresh]].
    + rewrite Em.
      split; [exact (blank_or_live_incl _ _ _ Hincl Hm)|].
      repeat (split; [assumption|]). assumption.
    + split; [right; exact Hnew|].
      split; [exact Hpi|]. split; [exact Hfi|].
      pose proof (live_not_blank _ _ Hok' Hnew) as Hnb.
      split.
      * intros Hne. split; [exact (proj1 (Hdp Hne))|].
        eapply fresh_differs; eauto.
      * intros _. eapply fresh_differs; eauto.
Qed.

Lemma play_consistent (actions : list App.Action) :
  forall w : App.World num, App.consistent w -> App.consistent (App.play actions w).
Proof.
  induction actions as [| a actions IH]; intros w Hw; [exact Hw|].
  cbn [App.play fold_left]. apply IH, act_consistent, Hw.
Qed.

Lemma start_consistent (store : URLStore) :
  store_ok store -> App.consistent (App.start store).
Proof.
  intros Hok. unfold App.consistent, App.start, App.blank_or_live. cbn.
  repeat split; auto; intros Hne; destruct (Hne eq_refl).
Qed.

Lemma busy_store_ok : store_ok busy_store.
Proof.
  intros u [E | [E | []]]; subst u.
  - exists 0%nat. split; [cbn; lia | reflexivity].
  - exists 7%nat. split; [cbn; lia | reflexivity].
Qed.

Lemma js_truthy_blob_url (n : nat) : js_truthy (blob_url n) = true.
Proof. apply js_truthy_true, blob_url_not_blank. Qed.

End AppFacts.

(** X6. [handleGenerate] on a well-kept URL store, whatever the browser
    does meanwhile, ends in exactly one of four ways:
    - an image is missing: nothing changes at all;
    - still awaiting: only [isProcessing] has changed, to true;
    - failed: [isProcessing] is false, the state is otherwise as before,
      the alert has been shown, and the live URLs are exactly those of
      before (the temporary URLs are gone);
    - succeeded: [isProcessing] is false, [mergedImage] is a URL that was
      not live before, and the live URLs are those of before plus that one.
    In the last three both images are present.  One of the four holds and
    no two hold together.  Without a 2D context it fails. *)
Theorem handleGenerate_outcomes :
  forall (num : Type) (Num : Number num)
         (has_context : bool) (events : list Event) (w : App.World num),
    store_ok (App.urls w) ->
    let w' := App.handleGenerate has_context events w in
    let present :=
      App.profileImage (App.state w) <> None
      /\ App.frameImage (App.state w) <> None in
    let unchanged :=
      (App.profileImage (App.state w) = None \/ App.frameImage (App.state w) = None)
      /\ w' = w in
    let awaiting :=
      present
      /\ App.state w' = App.with_processing true (App.state w)
      /\ App.alerts w' = App.alerts w
      /\ has_context = true in
    let failed :=
      present
      /\ App.state w' = App.with_processing false (App.state w)
      /\ live (App.urls w') = live (App.urls w)
      /\ App.alerts w' = App.alerts w ++ [App.generate_failed]
      /\ store_ok (App.urls w') in
    let succeeded :=
      present
      /\ exists u : URL,
           App.state w' = App.with_processing false (App.with_merged u (App.state w))
           /\ live (App.urls w') = u :: live (App.urls w)
           /\ ~ In u (live (App.urls w))
           /\ App.alerts w' = App.alerts w
           /\ has_context = true
           /\ store_ok (App.urls w') in
    (unchanged \/ awaiting \/ failed \/ succeeded)
    /\ ~ (unchanged /\ awaiting) /\ ~ (unchanged /\ failed)
    /\ ~ (unchanged /\ succeeded) /\ ~ (awaiting /\ failed)
    /\ ~ (awaiting /\ succeeded) /\ ~ (failed /\ succeeded)
    /\ (has_context = false -> present ->
        App.state w' = App.with_processing false (App.state w)
        /\ App.urls w' = App.urls w).
Proof.
  intros num Num has_context events w Hok. cbv zeta.
  set (w' := App.handleGenerate has_context events w).
  assert (Hcases :
    ((App.profileImage (App.state w) = None \/ App.frameImage (App.state w) = None)
     /\ w' = w)
    \/ ((App.profileImage (App.state w) <> None
         /\ App.frameImage (App.state w) <> None)
        /\ ((App.state w' = App.with_processing true (App.state w)
             /\ App.alerts w' = App.alerts w
             /\ has_context = true)
            \/ (App.state w' = App.with_processing false (App.state w)
                /\ live (App.urls w') = live (App.urls w)
                /\ App.alerts w' = App.alerts w ++ [App.generate_failed]
                /\ store_ok (App.urls w'))
            \/ (exists u : URL,
                  App.state w'
                  = App.with_processing false (App.with_merged u (App.state w))
                  /\ live (App.urls w') = u :: live (App.urls w)
                  /\ ~ In u (live (App.urls w))
                  /\ App.alerts w' = App.alerts w
                  /\ has_context = true
                  /\ store_ok (App.urls w'))))).
  { unfold w', App.handleGenerate.
    destruct (App.profileImage (App.state w)) as [p |] eqn:Ep;
      [| left; split; [left; reflexivity | reflexivity]].
    destruct (App.frameImage (App.state w)) as [f |] eqn:Ef;
      [| left; split; [right; reflexivity | reflexivity]].
    right. split; [split; discriminate|].
    pose proof (mergeImages_store p f (App.options_of (App.state w))
                  has_context events (App.urls w) Hok) as Hstore.
    cbv zeta in Hstore. destruct Hstore as (Hsettled & Hnoctx & Hctx).
    destruct (match mergeImages p f (App.options_of (App.state w)) has_context
                      (App.urls w)
              with
              | NoContext store' p0 => (store', p0)
              | Loading r0 => (urls (run events r0), promise (run events r0))
              end) as [store' outcome].
    cbn [fst snd] in *.
    destruct outcome as [| blob | error].
    - left. cbn [App.state App.alerts]. repeat split.
      destruct has_context; [reflexivity|].
      specialize (Hnoctx eq_refl). discriminate.
    - right; right.
      destruct (Hsettled ltac:(discriminate)) as (Hlive & _ & Hok').
      pose proof (createBlobURL_ok blob store' Hok') as Hnew.
      destruct (createBlobURL blob store') as [u store''].
      destruct Hnew as (Hl & Hfresh & Hok'').
      exists u. cbn [App.state App.urls App.alerts].
      split; [reflexivity|]. rewrite Hl, Hlive in *.
      split; [reflexivity|]. split; [exact Hfresh|].
      split; [reflexivity|]. split; [exact (Hctx blob eq_refl) | exact Hok''].
    - right; left.
      destruct (Hsettled ltac:(discriminate)) as (Hlive & _ & Hok').
      cbn [App.state App.urls App.alerts].
      split; [reflexivity|]. split; [exact Hlive|].
      split; [reflexivity | exact Hok']. }
  split; [| split; [| split; [| split; [| split; [| split; [| split]]]]]].
  - destruct Hcases as [Hsame | [Hpresent [Hwait | [Hfail | Hdone]]]].
    + left. exact Hsame.
    + right; left. split; assumption.
    + right; right; left. split; assumption.
    + right; right; right. split; assumption.
  - intros [[[E | E] _] [[Hp Hf] _]]; contradiction.
  - intros [[[E | E] _] [[Hp Hf] _]]; contradiction.
  - intros [[[E | E] _] [[Hp Hf] _]]; contradiction.
  - intros [(_ & Ewait & _) (_ & Efail & _)].
    rewrite Ewait in Efail. apply (f_equal App.isProcessing) in Efail.
    cbn in Efail. discriminate Efail.
  - intros [(_ & Ewait & _) (_ & u & Edone & _)].
    rewrite Ewait in Edone. apply (f_equal App.isProcessing) in Edone.
    cbn in Edone. discriminate Edone.
  - intros [(_ & _ & _ & Efail & _) (_ & u & _ & _ & _ & Edone & _)].
    rewrite Edone in Efail. apply (f_equal (@List.length string)) in Efail.
    rewrite length_app in Efail. cbn in Efail. lia.
  - intros Hno [Hp Hf]. subst has_context.
    unfold w', App.handleGenerate.
    destruct (App.profileImage (App.state w)); [| contradiction].
    destruct (App.frameImage (App.state w)); [| contradiction].
    cbn. split; reflexivity.
Qed.

Lemma handleGenerate_outcomes_witness :
  let w := {| App.state :=
                {| App.profileImage := Some {| file_name := "me.jpg" |};
                   App.frameImage := Some {| file_name := "frame.png" |};
                   App.profilePreview := "blob:0"; App.framePreview := "blob:7";
                   App.mergedImage := EmptyString; App.isProcessing := false;
                   App.profileScale := 1.25%float; App.frameScale := 1%float;
                   App.profileRotation := 10%float;
                   App.profileOffsetX := 0%float; App.profileOffsetY := (-20)%float |};
              App.urls := busy_store; App.alerts := [] |} in
  let w' := App.handleGenerate true
              [FrameLoad 800 600; ProfileLoad 4000 3000; BlobDone true] w in
  store_ok busy_store
  /\ exists u : URL,
       App.state w' = App.with_processing false (App.with_merged u (App.state w))
       /\ live (App.urls w') = u :: live busy_store
       /\ ~ In u (live busy_store).
Proof.
  cbv zeta. split; [exact busy_store_ok|].
  match goal with |- context [App.handleGenerate ?c ?e ?w] =>
    destruct (@handleGenerate_outcomes float float_Number c e w busy_store_ok)
      as [[Hsame | [Hwait | [Hfail | Hdone]]] _]
  end.
  - destruct Hsame as [[E | E] _]; discriminate E.
  - destruct Hwait as (_ & E & _). vm_compute in E. discriminate E.
  - destruct Hfail as (_ & _ & _ & E & _). vm_compute in E. discriminate E.
  - destruct Hdone as (_ & u & Hstate & Hlive & Hfresh & _).
    exists u. split; [exact Hstate|]. split; [exact Hlive | exact Hfresh].
Defined.

(** X7. From mounting on, whatever handlers are called and whatever the
    browser does during a generation, the URL fields of the state stay
    consistent with the browser's store: [profilePreview], [framePreview]
    and [mergedImage] are each blank or a live object URL (never a revoked
    one), no two of them hold the same URL, and a preview is blank exactly
    when its file is absent. *)
Theorem app_urls_stay_consistent :
  forall (num : Type) (Num : Number num)
         (store : URLStore) (actions : list App.Action),
    store_ok store ->
    App.consistent (@App.play num Num actions (App.start store)).
Proof.
  intros num Num store actions Hok.
  apply play_consistent, start_consistent, Hok.
Qed.

Lemma app_urls_stay_consistent_witness :
  store_ok busy_store
  /\ App.consistent
       (@App.play float float_Number
          [App.SelectProfile {| file_name := "me.jpg" |};
           App.SelectFrame {| file_name := "frame.png" |};
           App.Generate true [FrameLoad 800 600; ProfileLoad 4000 3000; BlobDone true];
           App.SelectProfile {| file_name := "other.jpg" |};
           App.Generate true [ProfileError];
           App.ClearFrame]
          (App.start busy_store)).
Proof.
  split; [exact busy_store_ok|].
  apply app_urls_stay_consistent. exact busy_store_ok.
Defined.

(** X8. An object URL held in [mergedImage] is never revoked: it stays
    live through every later sequence of handler calls, also after the
    state has dropped it.  After clearing both images the three URL fields
    are blank and the URL is still live. *)
Theorem merged_url_is_never_revoked :
  forall (num : Type) (Num : Number num)
         (store : URLStore) (actions later : list App.Action),
    store_ok store ->
    let w := @App.play num Num actions (App.start store) in
    let u := App.mergedImage (App.state w) in
    u <> EmptyString ->
    In u (live (App.urls (App.play later w)))
    /\ (let w' := App.play (later ++ [App.ClearProfile; App.ClearFrame]) w in
        App.profilePreview (App.state w') = EmptyString
        /\ App.framePreview (App.state w') = EmptyString
        /\ App.mergedImage (App.state w') = EmptyString
        /\ In u (live (App.urls w'))).
Proof.
  intros num Num store actions later Hok w u Hu.
  pose proof (play_consistent actions (App.start store) (start_consistent store Hok))
    as (Hokw & Hpp & Hfp & Hm & _ & _ & Hdp & Hdf).
  fold w in Hokw, Hpp, Hfp, Hm, Hdp, Hdf. fold u in Hm, Hdp, Hdf.
  assert (Hlive : In u (live (App.urls w))) by (destruct Hm as [E | Hin]; [contradiction | exact Hin]).
  assert (Hp : App.profilePreview (App.state w) <> u).
  { destruct (string_dec (App.profilePreview (App.state w)) EmptyString) as [E | Hne].
    - rewrite E. apply not_eq_sym. exact Hu.
    - exact (proj2 (Hdp Hne)). }
  assert (Hf : App.framePreview (App.state w) <> u).
  { destruct (string_dec (App.framePreview (App.state w)) EmptyString) as [E | Hne].
    - rewrite E. apply not_eq_sym. exact Hu.
    - exact (Hdf Hne). }
  split; [exact (play_keeps_unheld u later w Hokw Hlive Hp Hf)|].
  cbv zeta.
  split; [| split; [| split]];
    try (unfold App.play; rewrite fold_left_app; reflexivity).
  exact (play_keeps_unheld u _ w Hokw Hlive Hp Hf).
Qed.

Lemma merged_url_is_never_revoked_witness :
  let w := @App.play float float_Number
             [App.SelectProfile {| file_name := "me.jpg" |};
              App.SelectFrame {| file_name := "frame.png" |};
              App.Generate true [FrameLoad 800 600; ProfileLoad 4000 3000; BlobDone true]]
             (App.start busy_store) in
  let later := [App.SelectProfile {| file_name := "other.jpg" |};
                App.Generate true [ProfileError]] in
  store_ok busy_store
  /\ App.mergedImage (App.state w) = "blob:12"%string
  /\ In (App.mergedImage (App.state w)) (live (App.urls (App.play later w)))
  /\ App.mergedImage
       (App.state (App.play (later ++ [App.ClearProfile; App.ClearFrame]) w))
     = EmptyString
  /\ In (App.mergedImage (App.state w))
       (live (App.urls (App.play (later ++ [App.ClearProfile; App.ClearFrame]) w))).
Proof.
  cbv zeta. split; [exact busy_store_ok|].
  split; [vm_compute; reflexivity|].
  match goal with |- In _ (live (App.urls (App.play ?later (App.play ?actions _)))) /\ _ =>
    destruct (@merged_url_is_never_revoked float float_Number busy_store actions later
                busy_store_ok) as (Hlive & _ & _ & Hblank & Hleak)
  end.
  - vm_compute. discriminate.
  - split; [exact Hlive|]. split; [exact Hblank | exact Hleak].
Defined.

(** X9. Selecting an image and clearing it again leaves the browser's live
    URLs as they were; selecting a second image without clearing in
    between leaves the first preview URL behind: the clear revokes the
    second URL only, and the first is live on top of what was live
    before. *)
Theorem preview_url_lifetime :
  forall (num : Type) (Num : Number num)
         (file file' : File) (w : App.World num),
    store_ok (App.urls w) ->
    let first := blob_url (serial (App.urls w)) in
    live (App.urls (App.handleClearProfile (App.handleProfileSelect file w)))
    = live (App.urls w)
    /\ live (App.urls (App.handleClearFrame (App.handleFrameSelect file w)))
       = live (App.urls w)
    /\ App.profilePreview (App.state (App.handleProfileSelect file w)) = first
    /\ App.framePreview (App.state (App.handleFrameSelect file w)) = first
    /\ live (App.urls (App.handleClearProfile
                         (App.handleProfileSelect file' (App.handleProfileSelect file w))))
       = first :: live (App.urls w)
    /\ live (App.urls (App.handleClearFrame
                         (App.handleFrameSelect file' (App.handleFrameSelect file w))))
       = first :: live (App.urls w)
    /\ ~ In first (live (App.urls w)).
Proof.
  intros num Num file file' w Hok first. subst first.
  pose proof (@next_url_fresh _ Hok) as Hfresh.
  set (first := blob_url (serial (App.urls w))) in *.
  assert (Hsecond : blob_url (S (serial (App.urls w))) <> first).
  { intros E. apply blob_url_inj in E. lia. }
  assert (Hsecond' : ~ In (blob_url (S (serial (App.urls w)))) (live (App.urls w))).
  { intros Hin. destruct (Hok _ Hin) as (n & Hn & E). apply blob_url_inj in E. lia. }
  assert (Hone : remove string_dec first (first :: live (App.urls w)) = live (App.urls w)).
  { rewrite remove_cons. apply notin_remove. exact Hfresh. }
  assert (Htwo : remove string_dec (blob_url (S (serial (App.urls w))))
                   (blob_url (S (serial (App.urls w))) :: first :: live (App.urls w))
                 = first :: live (App.urls w)).
  { rewrite remove_cons. apply notin_remove.
    intros [E | Hin]; [exact (Hsecond (eq_sym E)) | exact (Hsecond' Hin)]. }
  unfold App.handleClearProfile, App.handleClearFrame,
         App.handleProfileSelect, App.handleFrameSelect, createObjectURL.
  cbn [App.state App.urls App.profilePreview App.framePreview live serial].
  fold (blob_url (serial (App.urls w))). fold (blob_url (S (serial (App.urls w)))).
  unfold revoke_if_truthy. rewrite !js_truthy_blob_url.
  unfold revokeObjectURL. cbn [live serial]. fold first.
  repeat split; assumption.
Qed.

Lemma preview_url_lifetime_witness :
  let w := @App.start float float_Number busy_store in
  store_ok (App.urls w)
  /\ live (App.urls (App.handleClearProfile
                       (App.handleProfileSelect {| file_name := "me.jpg" |} w)))
     = live busy_store
  /\ live (App.urls (App.handleClearProfile
                       (App.handleProfileSelect {| file_name := "other.jpg" |}
                          (App.handleProfileSelect {| file_name := "me.jpg" |} w))))
     = blob_url 8 :: live busy_store.
Proof.
  cbv zeta. split; [exact busy_store_ok|].
  destruct (@preview_url_lifetime float float_Number
              {| file_name := "me.jpg" |} {| file_name := "other.jpg" |}
              (App.start busy_store) busy_store_ok)
    as (Hclear & _ & _ & _ & Hleft & _).
  split; [exact Hclear | exact Hleft].
Defined.

(** X10. The preview shows what the export will hold.  When the preview's
    two elements have positive dimensions and the export's two files
    decode to the same dimensions, [renderPreview] logs nothing and leaves
    the preview canvas, whatever it held and whatever its size was, with
    the width and height of the exported bitmap and with the same drawing
    commands at the same places under the same transforms; only the image
    elements drawn are the preview's own. *)
Theorem preview_matches_export :
  forall (num : Type) (Num : Number num)
         (st : App.State num) (previewCanvas : Canvas2D num)
         (profileImg frameImg : HTMLImageElement)
         (profileFile frameFile : File) (store : URLStore) (r0 : Run num)
         (pw ph W Hh : N) (events : list Event),
    mergeImages profileFile frameFile (App.options_of st) true store = Loading r0 ->
    events = [ProfileLoad pw ph; FrameLoad W Hh]
    \/ events = [FrameLoad W Hh; ProfileLoad pw ph] ->
    js_or (naturalWidth profileImg) (width profileImg) = Some pw ->
    js_or (naturalHeight profileImg) (height profileImg) = Some ph ->
    js_or (naturalWidth frameImg) (width frameImg) = Some W ->
    js_or (naturalHeight frameImg) (height frameImg) = Some Hh ->
    (0 < pw)%N -> (0 < ph)%N -> (0 < W)%N -> (0 < Hh)%N ->
    exists (shown : Canvas2D num) (blob : Blob num),
      App.renderPreview st (Some previewCanvas) true (Some profileImg) (Some frameImg)
      = (Some shown, [])
      /\ promise (run (events ++ [BlobDone true]) r0) = Resolved blob
      /\ canvas_width shown = canvas_width (blob_bitmap blob)
      /\ canvas_height shown = canvas_height (blob_bitmap blob)
      /\ map shape_of (display shown) = map shape_of (display (blob_bitmap blob)).
Proof.
  intros num Num st previewCanvas profileImg frameImg profileFile frameFile store r0
         pw ph W Hh events Hstart Hev Epw Eph EW EH Hpw Hph HW HH.
  cbn in Hstart. injection Hstart as Hr0. subst r0.
  match goal with |- context [run _ ?x] => set (r0 := x) end.
  pose proof (@join_either_order num Num r0 pw ph W Hh events eq_refl eq_refl Hev) as Hjoin.
  set (loaded := set_frame (decoded W Hh (frame r0)) true
                   (set_profile (decoded pw ph (profile r0)) true r0)) in Hjoin.
  assert (EW' : js_or (naturalWidth (frame loaded)) (width (frame loaded)) = Some W)
    by (cbn; destruct W; [lia | reflexivity]).
  assert (EH' : js_or (naturalHeight (frame loaded)) (height (frame loaded)) = Some Hh)
    by (cbn; destruct Hh; [lia | reflexivity]).
  assert (Epw' : js_or (naturalWidth (profile loaded)) (width (profile loaded)) = Some pw)
    by (cbn; destruct pw; [lia | reflexivity]).
  assert (Eph' : js_or (naturalHeight (profile loaded)) (height (profile loaded)) = Some ph)
    by (cbn; destruct ph; [lia | reflexivity]).
  assert (Hg : guard (profile loaded) (frame loaded) = false).
  { apply guard_false. exists W, Hh, pw, ph. repeat (split; [assumption|]). assumption. }
  pose proof (@tryMerge_requests_blob num Num loaded eq_refl eq_refl eq_refl Hg) as Hreq.
  cbv zeta in Hreq.
  rewrite (render_draws (profile loaded) (frame loaded) (options loaded) (canvas loaded)
             EW' EH' Epw' Eph' HW HH Hpw Hph) in Hreq.
  unfold App.renderPreview. cbn [negb].
  rewrite (render_draws profileImg frameImg (App.options_of st) previewCanvas
             EW EH Epw Eph HW HH Hpw Hph).
  cbv zeta. eexists. eexists. split; [reflexivity|].
  unfold run. rewrite fold_left_app. fold (run events r0).
  rewrite Hjoin, Hreq. cbn [fst fold_left step toBlob_pending set_toBlob_pending].
  split; [reflexivity|].
  cbn [blob_bitmap canvas_width canvas_height display map shape_of].
  repeat split.
Qed.

Lemma preview_matches_export_witness :
  let st := {| App.profileImage := Some {| file_name := "me.jpg" |};
               App.frameImage := Some {| file_name := "frame.png" |};
               App.profilePreview := "blob:0"; App.framePreview := "blob:7";
               App.mergedImage := EmptyString; App.isProcessing := false;
               App.profileScale := 1.25%float; App.frameScale := 1%float;
               App.profileRotation := 10%float;
               App.profileOffsetX := 0%float; App.profileOffsetY := (-20)%float |} in
  exists (r0 : Run float) (shown : Canvas2D float) (blob : Blob float),
    mergeImages {| file_name := "me.jpg" |} {| file_name := "frame.png" |}
      (App.options_of st) true busy_store = Loading r0
    /\ App.renderPreview st
         (Some {| canvas_width := 300; canvas_height := 150; ctm := identity;
                  saved := []; display := [] |})
         true (Some (image "blob:0" 4000 3000)) (Some (image "blob:7" 800 600))
       = (Some shown, [])
    /\ promise (run ([FrameLoad 800 600; ProfileLoad 4000 3000] ++ [BlobDone true]) r0)
       = Resolved blob
    /\ canvas_width shown = canvas_width (blob_bitmap blob)
    /\ canvas_height shown = canvas_height (blob_bitmap blob)
    /\ map shape_of (display shown) = map shape_of (display (blob_bitmap blob)).
Proof.
  cbv zeta. eexists.
  match goal with |- exists shown blob, ?start /\ _ =>
    assert (Hstart : start) by reflexivity
  end.
  destruct (@preview_matches_export float float_Number _
              {| canvas_width := 300; canvas_height := 150; ctm := identity;
                 saved := []; display := [] |}
              (image "blob:0" 4000 3000) (image "blob:7" 800 600)
              _ _ _ _ 4000%N 3000%N 800%N 600%N _ Hstart (or_intror eq_refl)
              eq_refl eq_refl eq_refl eq_refl eq_refl eq_refl eq_refl eq_refl)
    as (shown & blob & Hshown & Hblob & Hw & Hh & Hshape).
  exists shown, blob.
  split; [exact Hstart|]. split; [exact Hshown|]. split; [exact Hblob|].
  split; [exact Hw|]. split; [exact Hh | exact Hshape].
Defined.

(** X11. With both scales left out, the scale-only compositor does in
    binary64 exactly what the first version did, rounding included: the
    same outcome and the same canvas, command for command.  The frame
    dimensions are at most 2147483647, the largest a canvas holds. *)
Theorem scale_defaults_reproduce_cover_only :
  forall (profile frame : HTMLImageElement) (s : Canvas2D float),
    (forall W : N, js_or (naturalWidth frame) (width frame) = Some W ->
                   (W <= 2147483647)%N) ->
    (forall Hh : N, js_or (naturalHeight frame) (height frame) = Some Hh ->
                    (Hh <= 2147483647)%N) ->
    ScaleOnly.renderCompositeToCanvas profile frame
      {| ScaleOnly.profileScale := None; ScaleOnly.frameScale := None |} s
    = CoverOnly.tryMerge_draw profile frame s.
Proof.
  intros profile frame s HWfit HHfit.
  destruct (guard profile frame) eqn:Hg.
  - rewrite (scale_only_throws profile frame _ s Hg).
    unfold guard in Hg. unfold CoverOnly.tryMerge_draw. rewrite Hg. reflexivity.
  - apply guard_false in Hg.
    destruct Hg as (W & Hh & pw & ph & EW & EH & Epw & Eph & HW & HH & Hpw & Hph).
    rewrite (scale_only_draws profile frame _ s EW EH Epw Eph HW HH Hpw Hph).
    unfold CoverOnly.tryMerge_draw. rewrite EW, EH, Epw, Eph.
    specialize (HWfit W EW). specialize (HHfit Hh EH).
    assert (HW53 : (W < 2 ^ 53)%N) by (change (2 ^ 53)%N with 9007199254740992%N; lia).
    assert (HH53 : (Hh < 2 ^ 53)%N) by (change (2 ^ 53)%N with 9007199254740992%N; lia).
    destruct (float_fill W HW53) as [EfW EmW].
    destruct (float_fill Hh HH53) as [EfH EmH].
    pose proof (canvas_dimension_fits default_width HWfit) as EcW.
    pose proof (canvas_dimension_fits default_height HHfit) as EcH.
    destruct W as [| W']; [lia|]. destruct Hh as [| Hh']; [lia|].
    destruct pw as [| pw']; [lia|]. destruct ph as [| ph']; [lia|].
    cbv zeta.
    cbv [layout or_default ScaleOnly.profileScale ScaleOnly.frameScale
         finalProfileWidth finalProfileHeight profileCenterX profileCenterY
         frameOffsetX frameOffsetY scaledFrameWidth scaledFrameHeight
         rotationRadians baseProfileScale baseProfileOffsetX baseProfileOffsetY].
    cbn [js_not dim_value N.eqb orb bind ret throw set_canvas_width set_canvas_height
         get_canvas_width get_canvas_height clearRect drawImage
         canvas_width canvas_height ctm saved display app fst snd].
    rewrite !EcW, !EcH.
    cbn [of_N add sub mul div neg Math_max float_Number] in *.
    change (float_of_N 1) with 1%float. change (float_of_N 2) with 2%float.
    rewrite EfW, EfH, !float_mul_one.
    reflexivity.
Qed.

Lemma scale_defaults_reproduce_cover_only_witness :
  let s : Canvas2D float :=
    {| canvas_width := 300; canvas_height := 150; ctm := identity;
       saved := []; display := [] |} in
  ScaleOnly.renderCompositeToCanvas (image "profile" 4000 3000) (image "frame" 800 600)
    {| ScaleOnly.profileScale := None; ScaleOnly.frameScale := None |} s
  = CoverOnly.tryMerge_draw (image "profile" 4000 3000) (image "frame" 800 600) s.
Proof.
  cbv zeta. apply scale_defaults_reproduce_cover_only.
  - intros W E. injection E as E. subst W. lia.
  - intros Hh E. injection E as E. subst Hh. lia.
Defined.
